(** * Lowering of the Async dialect to the runtime ABI and coroutine intrinsics

    A shallow embedding of the conversion patterns of AsyncToLLVM.cpp and of
    the scf StructuralTypeConversions.cpp, together with the properties the
    specification states about them.

    The patterns are written against the dialect-conversion rewriter.  The
    rewriter is modelled as a state monad over an arena of operation records:
    an [Operation*] is a slot index of the arena, creating an operation
    appends a slot, and the replace / erase / diagnostic requests a pattern
    makes are logged in the state in the order they are issued. *)

From stdpp Require Import base option list strings.
From Stdlib Require Import ZArith Lia.

Open Scope string_scope.
Open Scope Z_scope.
Open Scope list_scope.

(** ** Types *)

(** [mlir::Type] is a value-semantics handle that may be null: [NullTy] is the
    default-constructed handle, which [convertType] returns on failure and
    which the patterns test with [if (!type)]. *)
#[warnings="-register-all"]
Inductive Ty : Type :=
  | NullTy
  (* builtin *)
  | IntegerType (width : N)
  | IndexType
  | FunctionType (inputs results : list Ty)
  | OpaqueType (dialect name : string)
  (* async dialect *)
  | TokenType
  | GroupType
  | ValueType (valueType : Ty)
  | CoroIdType
  | CoroStateType
  | CoroHandleType
  (* LLVM dialect *)
  | LLVMPointerType (pointee : Ty)
  | LLVMTokenType
  | LLVMVoidType
  | LLVMFunctionType (ret : Ty) (params : list Ty) (isVarArg : bool).

Definition isNull (t : Ty) : bool :=
  match t with NullTy => true | _ => false end.

Definition isa_TokenType (t : Ty) : bool :=
  match t with TokenType => true | _ => false end.
Definition isa_GroupType (t : Ty) : bool :=
  match t with GroupType => true | _ => false end.
Definition isa_ValueType (t : Ty) : bool :=
  match t with ValueType _ => true | _ => false end.
Definition isa_CoroIdType (t : Ty) : bool :=
  match t with CoroIdType => true | _ => false end.
Definition isa_CoroStateType (t : Ty) : bool :=
  match t with CoroStateType => true | _ => false end.
Definition isa_CoroHandleType (t : Ty) : bool :=
  match t with CoroHandleType => true | _ => false end.

(** [type.dyn_cast<ValueType>()]: the payload type when [t] is a value type. *)
Definition dyn_cast_ValueType (t : Ty) : option Ty :=
  match t with ValueType payload => Some payload | _ => None end.

(** ** Async runtime API *)

Definition kAddRef := "mlirAsyncRuntimeAddRef".
Definition kDropRef := "mlirAsyncRuntimeDropRef".
Definition kCreateToken := "mlirAsyncRuntimeCreateToken".
Definition kCreateValue := "mlirAsyncRuntimeCreateValue".
Definition kCreateGroup := "mlirAsyncRuntimeCreateGroup".
Definition kEmplaceToken := "mlirAsyncRuntimeEmplaceToken".
Definition kEmplaceValue := "mlirAsyncRuntimeEmplaceValue".
Definition kAwaitToken := "mlirAsyncRuntimeAwaitToken".
Definition kAwaitValue := "mlirAsyncRuntimeAwaitValue".
Definition kAwaitGroup := "mlirAsyncRuntimeAwaitAllInGroup".
Definition kExecute := "mlirAsyncRuntimeExecute".
Definition kGetValueStorage := "mlirAsyncRuntimeGetValueStorage".
Definition kAddTokenToGroup := "mlirAsyncRuntimeAddTokenToGroup".
Definition kAwaitTokenAndExecute := "mlirAsyncRuntimeAwaitTokenAndExecute".
Definition kAwaitValueAndExecute := "mlirAsyncRuntimeAwaitValueAndExecute".
Definition kAwaitAllAndExecute := "mlirAsyncRuntimeAwaitAllInGroupAndExecute".

Definition kMalloc := "malloc".
Definition kFree := "free".
Definition kResume := "__resume".

Module AsyncAPI.

(* All async types are lowered to opaque i8* LLVM pointers at runtime. *)
Definition opaquePointerType : Ty := LLVMPointerType (IntegerType 8).

Definition tokenType : Ty := LLVMTokenType.

(* Auxiliary coroutine resume intrinsic wrapper. *)
Definition resumeFunctionType : Ty :=
  let voidTy := LLVMVoidType in
  let i8Ptr := opaquePointerType in
  LLVMFunctionType voidTy [i8Ptr] false.

Definition addOrDropRefFunctionType : Ty :=
  let ref := opaquePointerType in
  let count := IntegerType 32 in
  FunctionType [ref; count] [].

Definition createTokenFunctionType : Ty := FunctionType [] [TokenType].

Definition createValueFunctionType : Ty :=
  let i32 := IntegerType 32 in
  let value := opaquePointerType in
  FunctionType [i32] [value].

Definition createGroupFunctionType : Ty := FunctionType [] [GroupType].

Definition getValueStorageFunctionType : Ty :=
  let value := opaquePointerType in
  let storage := opaquePointerType in
  FunctionType [value] [storage].

Definition emplaceTokenFunctionType : Ty := FunctionType [TokenType] [].

Definition emplaceValueFunctionType : Ty :=
  let value := opaquePointerType in
  FunctionType [value] [].

Definition awaitTokenFunctionType : Ty := FunctionType [TokenType] [].

Definition awaitValueFunctionType : Ty :=
  let value := opaquePointerType in
  FunctionType [value] [].

Definition awaitGroupFunctionType : Ty := FunctionType [GroupType] [].

Definition executeFunctionType : Ty :=
  let hdl := opaquePointerType in
  let resume := LLVMPointerType resumeFunctionType in
  FunctionType [hdl; resume] [].

Definition addTokenToGroupFunctionType : Ty :=
  let i64 := IntegerType 64 in
  FunctionType [TokenType; GroupType] [i64].

Definition awaitTokenAndExecuteFunctionType : Ty :=
  let hdl := opaquePointerType in
  let resume := LLVMPointerType resumeFunctionType in
  FunctionType [TokenType; hdl; resume] [].

Definition awaitValueAndExecuteFunctionType : Ty :=
  let value := opaquePointerType in
  let hdl := opaquePointerType in
  let resume := LLVMPointerType resumeFunctionType in
  FunctionType [value; hdl; resume] [].

Definition awaitAllAndExecuteFunctionType : Ty :=
  let hdl := opaquePointerType in
  let resume := LLVMPointerType resumeFunctionType in
  FunctionType [GroupType; hdl; resume] [].

End AsyncAPI.

(** ** Type converter *)

(** Modelled from the spec: the [TypeConverter] base class (declared in
    mlir/Transforms/DialectConversion.h, not part of the sources at hand).
    A converter holds its registered callbacks in registration order.  A
    callback answers [None] when it does not apply to the type (the converter
    then asks the next callback), [Some None] when it rejects the type, and
    [Some (Some ts)] when it converts the type to the types [ts]. *)
Definition ConversionCallbackFn : Type := Ty -> option (option (list Ty)).

Record TypeConverter : Type := mkTypeConverter {
  conversions : list ConversionCallbackFn
}.

Definition emptyTypeConverter : TypeConverter := mkTypeConverter [].

(** Modelled from the spec: [TypeConverter::addConversion] for a callback
    that returns a [Type] (null means the conversion failed). *)
Definition wrapTypeCallback (callback : Ty -> Ty) : ConversionCallbackFn :=
  fun t =>
    let r := callback t in
    if isNull r then Some None else Some (Some [r]).

(** Modelled from the spec: [TypeConverter::addConversion] for a callback
    that returns an [Optional<Type>] ([llvm::None] means: try another
    callback). *)
Definition wrapOptionalCallback (callback : Ty -> option Ty)
  : ConversionCallbackFn :=
  fun t =>
    match callback t with
    | None => None
    | Some r => if isNull r then Some None else Some (Some [r])
    end.

Definition addConversion (cb : ConversionCallbackFn) (tc : TypeConverter)
  : TypeConverter :=
  mkTypeConverter (conversions tc ++ [cb]).

(** Callbacks are tried from the most recently registered one to the oldest;
    the first that applies decides. *)
Fixpoint tryConversions (cbs : list ConversionCallbackFn) (t : Ty)
  : option (list Ty) :=
  match cbs with
  | [] => None
  | cb :: rest =>
      match cb t with
      | Some result => result
      | None => tryConversions rest t
      end
  end.

(** Modelled from the spec: [TypeConverter::convertType(Type,
    SmallVectorImpl<Type>&)]. *)
Definition convertTypeResults (tc : TypeConverter) (t : Ty)
  : option (list Ty) :=
  tryConversions (rev (conversions tc)) t.

(** Modelled from the spec: [TypeConverter::convertType(Type)], the 1:1
    entry point: the converted type when the type converts to exactly one
    type, and the null type otherwise. *)
Definition convertType (tc : TypeConverter) (t : Ty) : Ty :=
  match convertTypeResults tc t with
  | Some [r] => r
  | _ => NullTy
  end.

(** AsyncRuntimeTypeConverter only converts types from the Async dialect to
    their runtime type (opaque pointers) and does not convert any other
    types. *)
Definition convertAsyncTypes (type : Ty) : option Ty :=
  if isa_TokenType type || isa_GroupType type || isa_ValueType type then
    Some AsyncAPI.opaquePointerType
  else if isa_CoroIdType type || isa_CoroStateType type then
    Some AsyncAPI.tokenType
  else if isa_CoroHandleType type then
    Some AsyncAPI.opaquePointerType
  else None.

Definition AsyncRuntimeTypeConverter : TypeConverter :=
  addConversion (wrapOptionalCallback convertAsyncTypes)
    (addConversion (wrapTypeCallback (fun type => type)) emptyTypeConverter).

(** ** Values, attributes and operations *)

(** An [Operation*] is a slot of the rewriter's arena; a [Block*] is named by
    a number. *)
Abbreviation OpId := nat (only parsing).
Abbreviation BlockId := nat (only parsing).

(** A [Value] handle: where the value is defined, and the type it has. *)
Inductive ValueDef : Type :=
  | NullValue
  | OpResult (owner : OpId) (resultNumber : nat)
  | BlockArgument (owner : BlockId) (argNumber : nat).

Record Value : Type := mkValue {
  valueDef : ValueDef;
  getType : Ty
}.

Definition nullValue : Value := mkValue NullValue NullTy.

Inductive Attribute : Type :=
  | IntegerAttr (type : Ty) (value : Z)
  | BoolAttr (value : bool)
  | FlatSymbolRefAttr (symbol : string)
  | DenseIntElementsAttr (type : Ty) (values : list Z).

(** The closed enumeration of the operation kinds the patterns read or
    build; every other operation is [OtherOp] with its name. *)
Inductive OpKind : Type :=
  | LLVM_ConstantOp
  | LLVM_NullOp
  | LLVM_GEPOp
  | LLVM_PtrToIntOp
  | LLVM_BitcastOp
  | LLVM_StoreOp
  | LLVM_LoadOp
  | LLVM_SExtOp
  | LLVM_SwitchOp
  | LLVM_CoroSuspendOp
  | CallOp
  | ConstantOp
  | scf_ForOp
  | scf_IfOp
  | async_ExecuteOp
  | OtherOp (name : string).

(** A block holds its argument types and, by reference, its operations in
    order.  A region is the list of its blocks, entry block first. *)
Record Block : Type := mkBlock {
  blockArgTypes : list Ty;
  blockOps : list OpId
}.

Abbreviation Region := (list Block) (only parsing).

Record Operation : Type := mkOperation {
  opKind : OpKind;
  opOperands : list Value;
  opResultTypes : list Ty;
  opAttrs : list (string * Attribute);
  opSuccessors : list BlockId;
  opRegions : list Region
}.

(** [Operation::getResult(i)] of the operation stored in slot [id]. *)
Definition getResult (id : OpId) (o : Operation) (i : nat) : Value :=
  mkValue (OpResult id i) (nth i (opResultTypes o) NullTy).

Definition getResults (id : OpId) (o : Operation) : list Value :=
  imap (fun i ty => mkValue (OpResult id i) ty) (opResultTypes o).

(** The operations nested directly in a region, block after block. *)
Definition regionOps (r : Region) : list OpId :=
  concat (map blockOps r).

(** *** Builders

    The argument lists follow the [build] overloads the patterns call. *)

Definition i1 : Ty := IntegerType 1.
Definition i8 : Ty := IntegerType 8.
Definition i32 : Ty := IntegerType 32.
Definition i64 : Ty := IntegerType 64.

(** [Builder::getI32IntegerAttr(int32_t)]: the value is kept as a signed
    32-bit integer. *)
Definition wrapInt32 (v : Z) : Z :=
  (v + 2 ^ 31) mod 2 ^ 32 - 2 ^ 31.

Definition getI32IntegerAttr (value : Z) : Attribute :=
  IntegerAttr i32 (wrapInt32 value).

Definition getBoolAttr (value : bool) : Attribute := BoolAttr value.

Definition build_LLVM_ConstantOp (res : Ty) (value : Attribute) : Operation :=
  mkOperation LLVM_ConstantOp [] [res] [("value", value)] [] [].

Definition build_ConstantOp (res : Ty) (value : Attribute) : Operation :=
  mkOperation ConstantOp [] [res] [("value", value)] [] [].

Definition build_LLVM_NullOp (res : Ty) : Operation :=
  mkOperation LLVM_NullOp [] [res] [] [] [].

Definition build_LLVM_GEPOp (res : Ty) (base : Value) (indices : list Value)
  : Operation :=
  mkOperation LLVM_GEPOp (base :: indices) [res] [] [] [].

Definition build_LLVM_PtrToIntOp (res : Ty) (arg : Value) : Operation :=
  mkOperation LLVM_PtrToIntOp [arg] [res] [] [] [].

Definition build_LLVM_BitcastOp (res : Ty) (arg : Value) : Operation :=
  mkOperation LLVM_BitcastOp [arg] [res] [] [] [].

Definition build_LLVM_StoreOp (value addr : Value) : Operation :=
  mkOperation LLVM_StoreOp [value; addr] [] [] [] [].

(** The load builder that takes only the address reads the result type off
    the pointer type. *)
Definition getElementType (ptr : Ty) : Ty :=
  match ptr with LLVMPointerType pointee => pointee | _ => NullTy end.

Definition build_LLVM_LoadOp (addr : Value) : Operation :=
  mkOperation LLVM_LoadOp [addr] [getElementType (getType addr)] [] [] [].

Definition build_LLVM_SExtOp (res : Ty) (arg : Value) : Operation :=
  mkOperation LLVM_SExtOp [arg] [res] [] [] [].

Definition build_LLVM_CoroSuspendOp (res : Ty) (operands : list Value)
  : Operation :=
  mkOperation LLVM_CoroSuspendOp operands [res] [] [] [].

(** The successors of a switch are its default destination followed by the
    case destinations; the case values and the branch weights (when given)
    are attributes. *)
Definition build_LLVM_SwitchOp (value : Value) (defaultDestination : BlockId)
    (defaultOperands : list Value) (caseValues : list Z)
    (caseDestinations : list BlockId) (caseOperands : list (list Value))
    (branchWeights : list Z) : Operation :=
  mkOperation LLVM_SwitchOp (value :: defaultOperands ++ concat caseOperands)
    []
    (("case_values", DenseIntElementsAttr i32 caseValues) ::
     match branchWeights with
     | [] => []
     | _ => [("branch_weights", DenseIntElementsAttr i32 branchWeights)]
     end)
    (defaultDestination :: caseDestinations) [].

Definition build_CallOp (callee : string) (results : list Ty)
    (operands : list Value) : Operation :=
  mkOperation CallOp operands results [("callee", FlatSymbolRefAttr callee)]
    [] [].

(** ** The rewriter *)

Inductive LogicalResult : Type := success | failure.

Definition failed (r : LogicalResult) : bool :=
  match r with failure => true | success => false end.

(** The state a pattern acts on.  [arena] holds every operation, old and
    new; [inserted] lists the operations created at the insertion point (just
    before the operation being rewritten), in creation order; the other
    fields log the requests made to the conversion driver. *)
Record RewriterState : Type := mkState {
  arena : list Operation;
  inserted : list OpId;
  replaced : list (OpId * list Value);
  erased : list OpId;
  diagnostics : list (OpId * string)
}.

Definition Rewrite (A : Type) : Type := RewriterState -> A * RewriterState.

Definition ret {A : Type} (a : A) : Rewrite A := fun st => (a, st).

Definition bind {A B : Type} (m : Rewrite A) (k : A -> Rewrite B)
  : Rewrite B :=
  fun st => let (a, st') := m st in k a st'.

Notation "x <- m ;; k" := (bind m (fun x => k))
  (at level 100, m at next level, right associativity).
Notation "m ;;; k" := (bind m (fun _ => k))
  (at level 100, right associativity).

(** The operation in slot [op]; patterns are only handed live operations. *)
Definition emptyOperation : Operation :=
  mkOperation (OtherOp "") [] [] [] [] [].

Definition getOperation (st : RewriterState) (op : OpId) : Operation :=
  default emptyOperation (arena st !! op).

Definition setOperation (op : OpId) (o : Operation) (st : RewriterState)
  : RewriterState :=
  mkState (<[op := o]> (arena st)) (inserted st) (replaced st) (erased st)
    (diagnostics st).

(** Modelled from the spec: [OpBuilder::create] (graph-mutation API, create
    op).  The new operation takes the next free slot and is inserted at the
    insertion point. *)
Definition create (o : Operation) : Rewrite OpId :=
  fun st =>
    let id := length (arena st) in
    (id, mkState (arena st ++ [o]) (inserted st ++ [id]) (replaced st)
           (erased st) (diagnostics st)).

(** Modelled from the spec: [PatternRewriter::replaceOp] (replace uses). *)
Definition replaceOp (op : OpId) (newValues : list Value) : Rewrite unit :=
  fun st =>
    (tt, mkState (arena st) (inserted st) (replaced st ++ [(op, newValues)])
           (erased st) (diagnostics st)).

(** Modelled from the spec: [PatternRewriter::replaceOpWithNewOp]: create
    the operation, then replace the old one by its results. *)
Definition replaceOpWithNewOp (op : OpId) (o : Operation) : Rewrite OpId :=
  newOp <- create o ;;
  replaceOp op (getResults newOp o) ;;;
  ret newOp.

(** Modelled from the spec: [PatternRewriter::eraseOp] (erase op). *)
Definition eraseOp (op : OpId) : Rewrite unit :=
  fun st =>
    (tt, mkState (arena st) (inserted st) (replaced st) (erased st ++ [op])
           (diagnostics st)).

(** Modelled from the spec: [PatternRewriter::notifyMatchFailure]: a local
    diagnostic attached to the offending operation; the result is failure. *)
Definition notifyMatchFailure (op : OpId) (msg : string)
  : Rewrite LogicalResult :=
  fun st =>
    (failure, mkState (arena st) (inserted st) (replaced st) (erased st)
                (diagnostics st ++ [(op, msg)])).

(** The operations a pattern run created, read from the final arena. *)
Definition emittedOps (before after : RewriterState) : list Operation :=
  map (getOperation after) (drop (length (inserted before)) (inserted after)).

(** The i-th remapped operand handed to a pattern.  The driver passes one
    value per operand of the matched operation. *)
Definition operandAt (operands : list Value) (i : nat) : Value :=
  nth i operands nullValue.

(** ** Coroutine and runtime operations

    The coroutine and runtime patterns only read the operation they match,
    so the matched operation is passed as a typed view: its slot and the
    operands, successors and attributes its accessors return. *)

(** [async.coro.suspend %state, ^suspend, ^resume, ^cleanup] *)
Record CoroSuspendOp : Type := mkCoroSuspendOp {
  suspend_op : OpId;
  suspend_state : Value;
  suspendDest : BlockId;
  resumeDest : BlockId;
  cleanupDest : BlockId
}.

(** [async.runtime.create : resultType] *)
Record RuntimeCreateOp : Type := mkRuntimeCreateOp {
  create_op : OpId;
  create_resultType : Ty
}.

(** [async.runtime.set_available %operand] *)
Record RuntimeSetAvailableOp : Type := mkRuntimeSetAvailableOp {
  set_available_op : OpId;
  set_available_operand : Value
}.

(** [async.runtime.store %value, %storage] *)
Record RuntimeStoreOp : Type := mkRuntimeStoreOp {
  store_op : OpId;
  store_value : Value;
  store_storage : Value
}.

(** [async.runtime.load %storage : result] *)
Record RuntimeLoadOp : Type := mkRuntimeLoadOp {
  load_op : OpId;
  load_storage : Value;
  load_result : Ty
}.

(** [async.runtime.add_ref %operand {count}] and
    [async.runtime.drop_ref %operand {count}] *)
Record RefCountingOp : Type := mkRefCountingOp {
  refcount_op : OpId;
  refcount_operand : Value;
  count : Z
}.

(** *** async.coro.suspend

    Convert async.coro.suspend to the @llvm.coro.suspend intrinsic call, and
    branch to the appropriate block based on the return code. *)
Definition CoroSuspendOpConversion (op : CoroSuspendOp)
    (operands : list Value) : Rewrite LogicalResult :=
  (* This is not a final suspension point. *)
  let constFalseOp := build_LLVM_ConstantOp i1 (getBoolAttr false) in
  constFalse <- create constFalseOp ;;
  (* Suspend a coroutine: @llvm.coro.suspend *)
  let coroState := operandAt operands 0 in
  let coroSuspendOp :=
    build_LLVM_CoroSuspendOp i8
      [coroState; getResult constFalse constFalseOp 0] in
  coroSuspend <- create coroSuspendOp ;;
  (* After a suspension point decide if we should branch into resume,
     cleanup or suspend block of the coroutine. *)
  let caseValues := [0; 1] in
  let caseDest := [resumeDest op; cleanupDest op] in
  let sextOp := build_LLVM_SExtOp i32 (getResult coroSuspend coroSuspendOp 0) in
  sext <- create sextOp ;;
  replaceOpWithNewOp (suspend_op op)
    (build_LLVM_SwitchOp (getResult sext sextOp 0)
       (suspendDest op) [] caseValues caseDest [] []) ;;;
  ret success.

(** *** async.runtime.create *)

(** A rewrite that may not return: [None] stands for the program aborting
    (an assertion failure or a null dereference) instead of handing a result
    back to the driver. *)
Definition RewriteOrAbort (A : Type) : Type :=
  RewriterState -> option (A * RewriterState).

Definition returned {A : Type} (m : Rewrite A) : RewriteOrAbort A :=
  fun st => Some (m st).

(** Modelled from the spec: [LLVM::LLVMPointerType::get(Type)], a type of
    the LLVM dialect declared outside this file.  As the patterns call it,
    it takes the pointee and no context: the context is read off the
    pointee.  On the null type there is nothing to read it from, and the
    call does not return. *)
Definition LLVMPointerType_get (pointee : Ty) : option Ty :=
  if isNull pointee then None else Some (LLVMPointerType pointee).

(** Returns the size requirements for the async value storage:
    [%Size = getelementptr %T* null, int 1],
    [%SizeI = ptrtoint %T* %Size to i32].
    The pointer type is built from the converted payload type before any
    operation is created. *)
Definition sizeOf (converter : TypeConverter) (valueType : Ty)
  : RewriteOrAbort Value :=
  let storedType := convertType converter valueType in
  match LLVMPointerType_get storedType with
  | None => fun _ => None
  | Some storagePtrType =>
      returned
        (let nullPtrOp := build_LLVM_NullOp storagePtrType in
         nullPtr <- create nullPtrOp ;;
         let oneOp := build_LLVM_ConstantOp i32 (getI32IntegerAttr 1) in
         one <- create oneOp ;;
         let gepOp :=
           build_LLVM_GEPOp storagePtrType (getResult nullPtr nullPtrOp 0)
             [getResult one oneOp 0] in
         gep <- create gepOp ;;
         let sizeOp := build_LLVM_PtrToIntOp i32 (getResult gep gepOp 0) in
         size <- create sizeOp ;;
         ret (getResult size sizeOp 0))
  end.

Definition RuntimeCreateOpLowering (converter : TypeConverter)
    (op : RuntimeCreateOp) (operands : list Value)
  : RewriteOrAbort LogicalResult :=
  let resultType := create_resultType op in
  (* Tokens and Groups lowered to function calls without arguments. *)
  if isa_TokenType resultType || isa_GroupType resultType then
    returned
      (replaceOpWithNewOp (create_op op)
         (build_CallOp
            (if isa_TokenType resultType then kCreateToken else kCreateGroup)
            [convertType converter resultType] []) ;;;
       ret success)
  else
    (* To create a value we need to compute the storage requirement. *)
    match dyn_cast_ValueType resultType with
    | Some payload =>
        fun st =>
          match sizeOf converter payload st with
          | None => None
          | Some (size, st') =>
              returned
                (replaceOpWithNewOp (create_op op)
                   (build_CallOp kCreateValue [resultType] [size]) ;;;
                 ret success)
                st'
          end
    | None =>
        returned
          (notifyMatchFailure (create_op op) "unsupported async type")
    end.

(** *** async.runtime.set_available *)
Definition RuntimeSetAvailableOpLowering (op : RuntimeSetAvailableOp)
    (operands : list Value) : Rewrite LogicalResult :=
  let operandType := getType (set_available_operand op) in
  if isa_TokenType operandType || isa_ValueType operandType then
    create
      (build_CallOp
         (if isa_TokenType operandType then kEmplaceToken else kEmplaceValue)
         [] operands) ;;;
    eraseOp (set_available_op op) ;;;
    ret success
  else notifyMatchFailure (set_available_op op) "unsupported async type".

(** *** async.runtime.store *)
Definition RuntimeStoreOpLowering (converter : TypeConverter)
    (op : RuntimeStoreOp) (operands : list Value) : Rewrite LogicalResult :=
  (* Get a pointer to the async value storage from the runtime. *)
  let i8Ptr := AsyncAPI.opaquePointerType in
  let storage := operandAt operands 1 in
  let storagePtrOp := build_CallOp kGetValueStorage [i8Ptr] [storage] in
  storagePtr <- create storagePtrOp ;;
  (* Cast from i8* to the LLVM pointer type. *)
  let valueType := getType (store_value op) in
  let llvmValueType := convertType converter valueType in
  if isNull llvmValueType then
    notifyMatchFailure (store_op op)
      "failed to convert stored value type to LLVM type"
  else
    let castedStoragePtrOp :=
      build_LLVM_BitcastOp (LLVMPointerType llvmValueType)
        (getResult storagePtr storagePtrOp 0) in
    castedStoragePtr <- create castedStoragePtrOp ;;
    (* Store the yielded value into the async value storage. *)
    let value := operandAt operands 0 in
    create
      (build_LLVM_StoreOp value
         (getResult castedStoragePtr castedStoragePtrOp 0)) ;;;
    (* Erase the original runtime store operation. *)
    eraseOp (store_op op) ;;;
    ret success.

(** *** async.runtime.load *)
Definition RuntimeLoadOpLowering (converter : TypeConverter)
    (op : RuntimeLoadOp) (operands : list Value) : Rewrite LogicalResult :=
  (* Get a pointer to the async value storage from the runtime. *)
  let i8Ptr := AsyncAPI.opaquePointerType in
  let storage := operandAt operands 0 in
  let storagePtrOp := build_CallOp kGetValueStorage [i8Ptr] [storage] in
  storagePtr <- create storagePtrOp ;;
  (* Cast from i8* to the LLVM pointer type. *)
  let valueType := load_result op in
  let llvmValueType := convertType converter valueType in
  if isNull llvmValueType then
    notifyMatchFailure (load_op op)
      "failed to convert loaded value type to LLVM type"
  else
    let castedStoragePtrOp :=
      build_LLVM_BitcastOp (LLVMPointerType llvmValueType)
        (getResult storagePtr storagePtrOp 0) in
    castedStoragePtr <- create castedStoragePtrOp ;;
    (* Load from the casted pointer. *)
    replaceOpWithNewOp (load_op op)
      (build_LLVM_LoadOp (getResult castedStoragePtr castedStoragePtrOp 0)) ;;;
    ret success.

(** *** async.runtime.add_ref and async.runtime.drop_ref *)
Definition RefCountingOpLowering (apiFunctionName : string)
    (op : RefCountingOp) (operands : list Value) : Rewrite LogicalResult :=
  let countOp := build_ConstantOp i32 (getI32IntegerAttr (count op)) in
  countId <- create countOp ;;
  let operand := operandAt operands 0 in
  replaceOpWithNewOp (refcount_op op)
    (build_CallOp apiFunctionName []
       [operand; getResult countId countOp 0]) ;;;
  ret success.

Definition RuntimeAddRefOpLowering : RefCountingOp -> list Value ->
    Rewrite LogicalResult :=
  RefCountingOpLowering kAddRef.

Definition RuntimeDropRefOpLowering : RefCountingOp -> list Value ->
    Rewrite LogicalResult :=
  RefCountingOpLowering kDropRef.

(** ** Structural type conversions

    The structural patterns mutate operations in place (regions are taken
    from the old operation, operands and result types of the new one are
    set), so they read and write the matched operation through the arena. *)

(** An operation record with one field changed. *)
Definition withOperands (o : Operation) (operands : list Value)
  : Operation :=
  mkOperation (opKind o) operands (opResultTypes o) (opAttrs o)
    (opSuccessors o) (opRegions o).

Definition withResultTypes (o : Operation) (types : list Ty) : Operation :=
  mkOperation (opKind o) (opOperands o) types (opAttrs o) (opSuccessors o)
    (opRegions o).

Definition withRegions (o : Operation) (regions : list Region)
  : Operation :=
  mkOperation (opKind o) (opOperands o) (opResultTypes o) (opAttrs o)
    (opSuccessors o) regions.

(** A [Region*]: the i-th region of an operation. *)
Abbreviation RegionRef := (nat * nat)%type (only parsing).

Definition getRegion (st : RewriterState) (r : RegionRef) : Region :=
  default [] (opRegions (getOperation st (fst r)) !! snd r).

Definition setRegion (r : RegionRef) (blocks : Region) (st : RewriterState)
  : RewriterState :=
  let o := getOperation st (fst r) in
  setOperation (fst r) (withRegions o (<[snd r := blocks]> (opRegions o))) st.

Definition getResultTypes (op : OpId) : Rewrite (list Ty) :=
  fun st => (opResultTypes (getOperation st op), st).

Definition getOpResults (op : OpId) : Rewrite (list Value) :=
  fun st => (getResults op (getOperation st op), st).

(** Modelled from the spec: [OpBuilder::cloneWithoutRegions] (step 2 of the
    structural recipe): a structurally identical operation, same attributes,
    with as many regions as the original but none populated. *)
Definition cloneWithoutRegions (op : OpId) : Rewrite OpId :=
  fun st =>
    let o := getOperation st op in
    create (withRegions o (map (fun _ => []) (opRegions o))) st.

(** Modelled from the spec: [PatternRewriter::inlineRegionBefore] (move
    region), called with the end of [parent] as the position: the blocks of
    [region] are spliced after the blocks of [parent], and [region] is left
    without blocks. *)
Definition inlineRegionBefore (region parent : RegionRef) : Rewrite unit :=
  fun st =>
    let blocks := getRegion st region in
    let st1 := setRegion region [] st in
    (tt, setRegion parent (getRegion st1 parent ++ blocks) st1).

(** The converted argument list of a block signature: each argument type is
    replaced by the types it converts to; there is none when some argument
    type does not convert. *)
Fixpoint convertSignatureArgs (converter : TypeConverter) (types : list Ty)
  : option (list Ty) :=
  match types with
  | [] => Some []
  | type :: rest =>
      match convertTypeResults converter type,
            convertSignatureArgs converter rest with
      | Some newTypes, Some newRest => Some (newTypes ++ newRest)
      | _, _ => None
      end
  end.

(** Modelled from the spec: [ConversionPatternRewriter::convertRegionTypes]
    (step 4 of the structural recipe): converts the argument types of the
    entry block of the region; the operations of the block stay where they
    are. *)
Definition convertRegionTypes (region : RegionRef)
    (converter : TypeConverter) : Rewrite LogicalResult :=
  fun st =>
    match getRegion st region with
    | [] => (success, st)
    | entry :: rest =>
        match convertSignatureArgs converter (blockArgTypes entry) with
        | None => (failure, st)
        | Some newArgTypes =>
            (success,
             setRegion region (mkBlock newArgTypes (blockOps entry) :: rest)
               st)
        end
    end.

(** [Operation::setOperands] *)
Definition setOperands (op : OpId) (operands : list Value) : Rewrite unit :=
  fun st =>
    let o := getOperation st op in
    (tt, setOperation op (withOperands o operands) st).

Definition setResultTypes (op : OpId) (types : list Ty) : Rewrite unit :=
  fun st =>
    let o := getOperation st op in
    (tt, setOperation op (withResultTypes o types) st).

(** [for (auto t : llvm::zip(newOp.getResults(), newResultTypes))
       std::get<0>(t).setType(std::get<1>(t));]
    the zip stops at the shorter range. *)
Fixpoint zipSetType (results newResultTypes : list Ty) : list Ty :=
  match results, newResultTypes with
  | _ :: results', t :: newResultTypes' =>
      t :: zipSetType results' newResultTypes'
  | _, _ => results
  end.

Definition setResultTypesZip (op : OpId) (newResultTypes : list Ty)
  : Rewrite unit :=
  types <- getResultTypes op ;;
  setResultTypes op (zipSetType types newResultTypes).

(** [for (auto type : op.getResultTypes()) { ... }]: every result type is
    converted in turn; the loop is left at the first type that does not
    convert. *)
Fixpoint convertResultTypes (converter : TypeConverter) (types : list Ty)
  : option (list Ty) :=
  match types with
  | [] => Some []
  | type :: rest =>
      let newType := convertType converter type in
      if isNull newType then None
      else
        match convertResultTypes converter rest with
        | Some newResultTypes => Some (newType :: newResultTypes)
        | None => None
        end
  end.

(** scf.for: the loop body is region 0. *)
Definition ConvertForOpTypes (typeConverter : TypeConverter) (op : OpId)
    (operands : list Value) : Rewrite LogicalResult :=
  types <- getResultTypes op ;;
  match convertResultTypes typeConverter types with
  | None => notifyMatchFailure op "not a 1:1 type conversion"
  | Some newResultTypes =>
      (* Clone the op without the regions and inline the regions from the
         old op. *)
      newOp <- cloneWithoutRegions op ;;
      (* Take the region from the old op and put it in the new op. *)
      inlineRegionBefore (op, 0%nat) (newOp, 0%nat) ;;;
      (* Convert the type of the entry block of the ForOp's body. *)
      converted <- convertRegionTypes (newOp, 0%nat) typeConverter ;;
      if failed converted then
        notifyMatchFailure op "could not convert body types"
      else
        (* Change the clone to use the updated operands. *)
        setOperands newOp operands ;;;
        (* Update the result types to the new converted types. *)
        setResultTypesZip newOp newResultTypes ;;;
        results <- getOpResults newOp ;;
        replaceOp op results ;;;
        ret success
  end.

(** scf.if: the then region is region 0, the else region is region 1. *)
Definition ConvertIfOpTypes (typeConverter : TypeConverter) (op : OpId)
    (operands : list Value) : Rewrite LogicalResult :=
  types <- getResultTypes op ;;
  match convertResultTypes typeConverter types with
  | None => notifyMatchFailure op "not a 1:1 type conversion"
  | Some newResultTypes =>
      (* See comments in the ForOp pattern for why we clone without regions
         and then inline. *)
      newOp <- cloneWithoutRegions op ;;
      inlineRegionBefore (op, 0%nat) (newOp, 0%nat) ;;;
      inlineRegionBefore (op, 1%nat) (newOp, 1%nat) ;;;
      (* Update the operands and types. *)
      setOperands newOp operands ;;;
      setResultTypesZip newOp newResultTypes ;;;
      results <- getOpResults newOp ;;
      replaceOp op results ;;;
      ret success
  end.

(** async.execute: the body is region 0. *)
Definition ConvertExecuteOpTypes (typeConverter : TypeConverter) (op : OpId)
    (operands : list Value) : Rewrite LogicalResult :=
  newOp <- cloneWithoutRegions op ;;
  inlineRegionBefore (op, 0%nat) (newOp, 0%nat) ;;;
  (* Set operands and update block argument and result types. *)
  setOperands newOp operands ;;;
  converted <- convertRegionTypes (newOp, 0%nat) typeConverter ;;
  if failed converted then ret failure
  else
    types <- getResultTypes newOp ;;
    setResultTypes newOp (map (convertType typeConverter) types) ;;;
    results <- getOpResults newOp ;;
    replaceOp op results ;;;
    ret success.

(** The three structural patterns that own regions, and the number of
    regions the operation each one matches has. *)
Inductive StructuralPattern : Type :=
  | ForOpTypes
  | IfOpTypes
  | ExecuteOpTypes.

Definition matchAndRewrite (p : StructuralPattern)
  : TypeConverter -> OpId -> list Value -> Rewrite LogicalResult :=
  match p with
  | ForOpTypes => ConvertForOpTypes
  | IfOpTypes => ConvertIfOpTypes
  | ExecuteOpTypes => ConvertExecuteOpTypes
  end.

Definition matchedKind (p : StructuralPattern) : OpKind :=
  match p with
  | ForOpTypes => scf_ForOp
  | IfOpTypes => scf_IfOp
  | ExecuteOpTypes => async_ExecuteOp
  end.

Definition numRegions (p : StructuralPattern) : nat :=
  match p with
  | ForOpTypes => 1
  | IfOpTypes => 2
  | ExecuteOpTypes => 1
  end.

(** ** Declarations added to the module *)

Inductive Visibility : Type := Public | Private | Nested.

(** The operations of a module body that matter to the declaration step:
    function declarations of the two function kinds, and any other
    operation, which may or may not define a symbol. *)
Inductive TopLevelOp : Type :=
  | FuncOp (sym_name : string) (type : Ty) (sym_visibility : Visibility)
  | LLVMFuncOp (sym_name : string) (type : Ty) (sym_visibility : Visibility)
  | OtherTopLevelOp (sym_name : option string).

(** The body of a module, terminator left out: new declarations are created
    in front of the terminator, that is at the end of this list. *)
Definition ModuleOp : Type := list TopLevelOp.

Definition symbolName (o : TopLevelOp) : option string :=
  match o with
  | FuncOp name _ _ => Some name
  | LLVMFuncOp name _ _ => Some name
  | OtherTopLevelOp name => name
  end.

Definition definesSymbol (name : string) (o : TopLevelOp) : bool :=
  bool_decide (symbolName o = Some name).

(** Modelled from the spec: [ModuleOp::lookupSymbol], the symbol table used
    to check whether a declaration with this name already exists. *)
Definition lookupSymbol (name : string) (module : ModuleOp)
  : option TopLevelOp :=
  List.find (definesSymbol name) module.

(** The lambda [addFuncDecl] of [addAsyncRuntimeApiDeclarations]. *)
Definition addFuncDecl (name : string) (type : Ty) (module : ModuleOp)
  : ModuleOp :=
  match lookupSymbol name module with
  | Some _ => module
  | None => module ++ [FuncOp name type Private]
  end.

(** Adds Async Runtime C API declarations to the module. *)
Definition addAsyncRuntimeApiDeclarations (module : ModuleOp) : ModuleOp :=
  let module := addFuncDecl kAddRef AsyncAPI.addOrDropRefFunctionType module in
  let module := addFuncDecl kDropRef AsyncAPI.addOrDropRefFunctionType module in
  let module := addFuncDecl kCreateToken AsyncAPI.createTokenFunctionType module in
  let module := addFuncDecl kCreateValue AsyncAPI.createValueFunctionType module in
  let module := addFuncDecl kCreateGroup AsyncAPI.createGroupFunctionType module in
  let module := addFuncDecl kEmplaceToken AsyncAPI.emplaceTokenFunctionType module in
  let module := addFuncDecl kEmplaceValue AsyncAPI.emplaceValueFunctionType module in
  let module := addFuncDecl kAwaitToken AsyncAPI.awaitTokenFunctionType module in
  let module := addFuncDecl kAwaitValue AsyncAPI.awaitValueFunctionType module in
  let module := addFuncDecl kAwaitGroup AsyncAPI.awaitGroupFunctionType module in
  let module := addFuncDecl kExecute AsyncAPI.executeFunctionType module in
  let module :=
    addFuncDecl kGetValueStorage AsyncAPI.getValueStorageFunctionType module in
  let module :=
    addFuncDecl kAddTokenToGroup AsyncAPI.addTokenToGroupFunctionType module in
  let module :=
    addFuncDecl kAwaitTokenAndExecute
      AsyncAPI.awaitTokenAndExecuteFunctionType module in
  let module :=
    addFuncDecl kAwaitValueAndExecute
      AsyncAPI.awaitValueAndExecuteFunctionType module in
  let module :=
    addFuncDecl kAwaitAllAndExecute
      AsyncAPI.awaitAllAndExecuteFunctionType module in
  module.

Definition addLLVMFuncDecl (name : string) (ret : Ty) (params : list Ty)
    (module : ModuleOp) : ModuleOp :=
  match lookupSymbol name module with
  | Some _ => module
  | None =>
      let type := LLVMFunctionType ret params false in
      module ++ [LLVMFuncOp name type Public]
  end.

(** Adds malloc/free declarations to the module. *)
Definition addCRuntimeDeclarations (module : ModuleOp) : ModuleOp :=
  let voidTy := LLVMVoidType in
  let i64 := IntegerType 64 in
  let i8Ptr := LLVMPointerType (IntegerType 8) in
  let module := addLLVMFuncDecl kMalloc i8Ptr [i64] module in
  let module := addLLVMFuncDecl kFree voidTy [i8Ptr] module in
  module.

(** The declaration step at the start of [runOnOperation]. *)
Definition addRuntimeDeclarations (module : ModuleOp) : ModuleOp :=
  addCRuntimeDeclarations (addAsyncRuntimeApiDeclarations module).

(** The names the declaration step declares. *)
Definition declaredNames : list string :=
  [kAddRef; kDropRef; kCreateToken; kCreateValue; kCreateGroup;
   kEmplaceToken; kEmplaceValue; kAwaitToken; kAwaitValue; kAwaitGroup;
   kExecute; kGetValueStorage; kAddTokenToGroup; kAwaitTokenAndExecute;
   kAwaitValueAndExecute; kAwaitAllAndExecute; kMalloc; kFree].

(** How many operations of the module define the symbol [name]. *)
Definition symbolCount (name : string) (module : ModuleOp) : nat :=
  length (List.filter (definesSymbol name) module).

(** ** Reading a switch

    The destination a switch transfers control to for a given value of its
    operand: the destination of the first case whose value matches, and the
    default destination when no case matches. *)
Definition caseValuesOf (o : Operation) : list Z :=
  match opAttrs o with
  | (_, DenseIntElementsAttr _ values) :: _ => values
  | _ => []
  end.

Fixpoint selectCase (caseValues : list Z) (caseDestinations : list BlockId)
    (v : Z) : option BlockId :=
  match caseValues, caseDestinations with
  | c :: caseValues', d :: caseDestinations' =>
      if Z.eqb c v then Some d else selectCase caseValues' caseDestinations' v
  | _, _ => None
  end.

Definition switchDestination (o : Operation) (v : Z) : option BlockId :=
  match opKind o, opSuccessors o with
  | LLVM_SwitchOp, defaultDestination :: caseDestinations =>
      Some (default defaultDestination
              (selectCase (caseValuesOf o) caseDestinations v))
  | _, _ => None
  end.

(** The value of an i8 bit pattern [r] (0 <= r < 256) after sign extension to
    i32, read as a signed integer. *)
Definition sext_i8_i32 (r : Z) : Z :=
  if Z.testbit r 7 then Z.lor r (Z.shiftl (-1) 8) else Z.land r 255.

(** ** Auxiliary definitions used to state the properties *)

(** Is the operation a call to the function [callee]? *)
Definition isCallTo (callee : string) (o : Operation) : bool :=
  match opKind o, opAttrs o with
  | CallOp, [(_, FlatSymbolRefAttr name)] => bool_decide (name = callee)
  | _, _ => false
  end.

(** The entry block of a region after its argument types are converted;
    nothing when some argument type does not convert. *)
Definition convertEntryBlock (converter : TypeConverter) (blocks : Region)
  : option Region :=
  match blocks with
  | [] => Some []
  | entry :: rest =>
      match convertSignatureArgs converter (blockArgTypes entry) with
      | Some newArgTypes => Some (mkBlock newArgTypes (blockOps entry) :: rest)
      | None => None
      end
  end.

(** The operation a structural pattern is applied to: a live operation of
    the kind the pattern matches, with the regions that kind has. *)
Definition matches (p : StructuralPattern) (o : Operation) : Prop :=
  opKind o = matchedKind p /\ length (opRegions o) = numRegions p.

(** What a successful structural rewrite leaves behind: one new operation,
    the clone, in the slot after the old arena; the operations of each of
    its regions are those of the same region of the old operation, block by
    block and in the same order; the old operation has lost its blocks; and
    no other slot of the arena has changed. *)
Definition regionsMoved (op : OpId) (o : Operation)
    (st st' : RewriterState) : Prop :=
  let newOp := length (arena st) in
  exists new old : Operation,
    arena st' = <[op := old]> (arena st) ++ [new] /\
    inserted st' = inserted st ++ [newOp] /\
    replaced st' = replaced st ++ [(op, getResults newOp new)] /\
    opKind new = opKind o /\
    map (map blockOps) (opRegions new) = map (map blockOps) (opRegions o) /\
    map regionOps (opRegions new) = map regionOps (opRegions o) /\
    old = withRegions o (map (fun _ => []) (opRegions o)).

(** Both declaration helpers have the same shape: look the name up, and
    append the declaration when the lookup finds nothing. *)
Definition declare (d : string * TopLevelOp) (module : ModuleOp)
  : ModuleOp :=
  match lookupSymbol (fst d) module with
  | Some _ => module
  | None => module ++ [snd d]
  end.

Definition runtimeDeclarations : list (string * TopLevelOp) :=
  let i8Ptr := LLVMPointerType (IntegerType 8) in
  let func name type := (name, FuncOp name type Private) in
  let llvmFunc name ret params :=
    (name, LLVMFuncOp name (LLVMFunctionType ret params false) Public) in
  [func kAddRef AsyncAPI.addOrDropRefFunctionType;
   func kDropRef AsyncAPI.addOrDropRefFunctionType;
   func kCreateToken AsyncAPI.createTokenFunctionType;
   func kCreateValue AsyncAPI.createValueFunctionType;
   func kCreateGroup AsyncAPI.createGroupFunctionType;
   func kEmplaceToken AsyncAPI.emplaceTokenFunctionType;
   func kEmplaceValue AsyncAPI.emplaceValueFunctionType;
   func kAwaitToken AsyncAPI.awaitTokenFunctionType;
   func kAwaitValue AsyncAPI.awaitValueFunctionType;
   func kAwaitGroup AsyncAPI.awaitGroupFunctionType;
   func kExecute AsyncAPI.executeFunctionType;
   func kGetValueStorage AsyncAPI.getValueStorageFunctionType;
   func kAddTokenToGroup AsyncAPI.addTokenToGroupFunctionType;
   func kAwaitTokenAndExecute AsyncAPI.awaitTokenAndExecuteFunctionType;
   func kAwaitValueAndExecute AsyncAPI.awaitValueAndExecuteFunctionType;
   func kAwaitAllAndExecute AsyncAPI.awaitAllAndExecuteFunctionType;
   llvmFunc kMalloc i8Ptr [IntegerType 64];
   llvmFunc kFree LLVMVoidType [i8Ptr]].

Definition declareAll (ds : list (string * TopLevelOp)) (module : ModuleOp)
  : ModuleOp :=
  fold_left (fun m d => declare d m) ds module.

(** ** The other coroutine and runtime patterns

    Operation kinds outside the enumeration are [OtherOp] with their
    name. *)

Definition build_LLVM_CoroIdOp (res : Ty) (operands : list Value)
  : Operation :=
  mkOperation (OtherOp "llvm.intr.coro.id") operands [res] [] [] [].

Definition build_LLVM_CoroSizeOp (res : Ty) : Operation :=
  mkOperation (OtherOp "llvm.intr.coro.size") [] [res] [] [] [].

Definition build_LLVM_CoroBeginOp (res : Ty) (operands : list Value)
  : Operation :=
  mkOperation (OtherOp "llvm.intr.coro.begin") operands [res] [] [] [].

Definition build_LLVM_CoroFreeOp (res : Ty) (operands : list Value)
  : Operation :=
  mkOperation (OtherOp "llvm.intr.coro.free") operands [res] [] [] [].

Definition build_LLVM_CoroEndOp (res : Ty) (operands : list Value)
  : Operation :=
  mkOperation (OtherOp "llvm.intr.coro.end") operands [res] [] [] [].

Definition build_LLVM_CoroSaveOp (res : Ty) (operands : list Value)
  : Operation :=
  mkOperation (OtherOp "llvm.intr.coro.save") operands [res] [] [] [].

(** [LLVM::CallOp] with a symbol reference as callee. *)
Definition build_LLVM_CallOp (results : list Ty) (callee : string)
    (operands : list Value) : Operation :=
  mkOperation (OtherOp "llvm.call") operands results
    [("callee", FlatSymbolRefAttr callee)] [] [].

Definition build_ReturnOp (operands : list Value) : Operation :=
  mkOperation (OtherOp "std.return") operands [] [] [] [].

Definition build_async_YieldOp (operands : list Value) : Operation :=
  mkOperation (OtherOp "async.yield") operands [] [] [] [].

Definition build_scf_YieldOp (operands : list Value) : Operation :=
  mkOperation (OtherOp "scf.yield") operands [] [] [] [].

(** [async.runtime.await %operand] *)
Record RuntimeAwaitOp : Type := mkRuntimeAwaitOp {
  await_op : OpId;
  await_operand : Value
}.

(** [async.runtime.add_to_group %operand, %group] *)
Record RuntimeAddToGroupOp : Type := mkRuntimeAddToGroupOp {
  add_to_group_op : OpId;
  add_to_group_operand : Value;
  add_to_group_group : Value
}.

(** *** async.coro.id *)
Definition CoroIdOpConversion (op : OpId) (operands : list Value)
  : Rewrite LogicalResult :=
  let token := AsyncAPI.tokenType in
  let i8Ptr := AsyncAPI.opaquePointerType in
  (* Constants for initializing coroutine frame. *)
  let constZeroOp := build_LLVM_ConstantOp i32 (getI32IntegerAttr 0) in
  constZero <- create constZeroOp ;;
  let nullPtrOp := build_LLVM_NullOp i8Ptr in
  nullPtr <- create nullPtrOp ;;
  (* Get coroutine id: @llvm.coro.id. *)
  replaceOpWithNewOp op
    (build_LLVM_CoroIdOp token
       [getResult constZero constZeroOp 0; getResult nullPtr nullPtrOp 0;
        getResult nullPtr nullPtrOp 0; getResult nullPtr nullPtrOp 0]) ;;;
  ret success.

(** *** async.coro.begin *)
Definition CoroBeginOpConversion (op : OpId) (operands : list Value)
  : Rewrite LogicalResult :=
  let i8Ptr := AsyncAPI.opaquePointerType in
  (* Get coroutine frame size: @llvm.coro.size.i64. *)
  let coroSizeOp := build_LLVM_CoroSizeOp i64 in
  coroSize <- create coroSizeOp ;;
  (* Allocate memory for the coroutine frame. *)
  let coroAllocOp :=
    build_LLVM_CallOp [i8Ptr] kMalloc [getResult coroSize coroSizeOp 0] in
  coroAlloc <- create coroAllocOp ;;
  (* Begin a coroutine: @llvm.coro.begin. *)
  let coroId := operandAt operands 0 in
  replaceOpWithNewOp op
    (build_LLVM_CoroBeginOp i8Ptr
       [coroId; getResult coroAlloc coroAllocOp 0]) ;;;
  ret success.

(** *** async.coro.free *)
Definition CoroFreeOpConversion (op : OpId) (operands : list Value)
  : Rewrite LogicalResult :=
  let i8Ptr := AsyncAPI.opaquePointerType in
  (* Get a pointer to the coroutine frame memory: @llvm.coro.free. *)
  let coroMemOp := build_LLVM_CoroFreeOp i8Ptr operands in
  coroMem <- create coroMemOp ;;
  (* Free the memory. *)
  replaceOpWithNewOp op
    (build_LLVM_CallOp [] kFree [getResult coroMem coroMemOp 0]) ;;;
  ret success.

(** *** async.coro.end *)
Definition CoroEndOpConversion (op : OpId) (operands : list Value)
  : Rewrite LogicalResult :=
  (* We are not in the block that is part of the unwind sequence. *)
  let constFalseOp := build_LLVM_ConstantOp i1 (getBoolAttr false) in
  constFalse <- create constFalseOp ;;
  (* Mark the end of a coroutine: @llvm.coro.end. *)
  let coroHdl := operandAt operands 0 in
  create
    (build_LLVM_CoroEndOp i1
       [coroHdl; getResult constFalse constFalseOp 0]) ;;;
  eraseOp op ;;;
  ret success.

(** *** async.coro.save *)
Definition CoroSaveOpConversion (op : OpId) (operands : list Value)
  : Rewrite LogicalResult :=
  (* Save the coroutine state: @llvm.coro.save *)
  replaceOpWithNewOp op
    (build_LLVM_CoroSaveOp AsyncAPI.tokenType operands) ;;;
  ret success.

(** *** async.runtime.await *)
Definition RuntimeAwaitOpLowering (op : RuntimeAwaitOp)
    (operands : list Value) : Rewrite LogicalResult :=
  let operandType := getType (await_operand op) in
  let lower apiFuncName :=
    create (build_CallOp apiFuncName [] operands) ;;;
    eraseOp (await_op op) ;;;
    ret success in
  if isa_TokenType operandType then lower kAwaitToken
  else if isa_ValueType operandType then lower kAwaitValue
  else if isa_GroupType operandType then lower kAwaitGroup
  else notifyMatchFailure (await_op op) "unsupported async type".

(** *** async.runtime.add_to_group *)
Definition RuntimeAddToGroupOpLowering (op : RuntimeAddToGroupOp)
    (operands : list Value) : Rewrite LogicalResult :=
  (* Currently we can only add tokens to the group. *)
  if negb (isa_TokenType (getType (add_to_group_operand op))) then
    notifyMatchFailure (add_to_group_op op) "only token type is supported"
  else
    (* Replace with a runtime API function call. *)
    replaceOpWithNewOp (add_to_group_op op)
      (build_CallOp kAddTokenToGroup [i64] operands) ;;;
    ret success.

(** *** return, async.yield and scf.yield

    Patterns that rebuild the operation on the remapped operands. *)
Definition ReturnOpOpConversion (op : OpId) (operands : list Value)
  : Rewrite LogicalResult :=
  replaceOpWithNewOp op (build_ReturnOp operands) ;;;
  ret success.

Definition ConvertAsyncYieldOpTypes (op : OpId) (operands : list Value)
  : Rewrite LogicalResult :=
  replaceOpWithNewOp op (build_async_YieldOp operands) ;;;
  ret success.

Definition ConvertScfYieldOpTypes (op : OpId) (operands : list Value)
  : Rewrite LogicalResult :=
  replaceOpWithNewOp op (build_scf_YieldOp operands) ;;;
  ret success.

(** The symbols an operation refers to through its attributes. *)
Definition symbolUses (o : Operation) : list string :=
  flat_map
    (fun attr =>
       match snd attr with
       | FlatSymbolRefAttr symbol => [symbol]
       | _ => []
       end)
    (opAttrs o).

(** Modelled from the spec: [TypeConverter::isLegal(Type)] (type-registry
    lookup, is-legal): a type is legal when it converts to itself. *)
Definition isLegalType (converter : TypeConverter) (t : Ty) : Prop :=
  convertType converter t = t.

(** Does the module lack a symbol of this name? *)
Definition isMissing (module : ModuleOp) (name : string) : bool :=
  match lookupSymbol name module with
  | Some _ => false
  | None => true
  end.

(** The declaration the table [ds] holds for a name: the first entry with
    that name. *)
Definition declarationOf (name : string) (ds : list (string * TopLevelOp))
  : option TopLevelOp :=
  option_map snd (find (fun d => bool_decide (fst d = name)) ds).

(** The outcome of a pattern, as the conversion driver sees it: the
    operations appended to the arena, and what was requested for the
    operation the pattern was applied to. *)
Definition appendsOnly (st st' : RewriterState) (new : list Operation)
  : Prop :=
  arena st' = arena st ++ new /\
  inserted st' = inserted st ++ seq (length (arena st)) (length new).

Definition disposesOf (op : OpId) (st st' : RewriterState) : Prop :=
  (exists newValues,
     replaced st' = replaced st ++ [(op, newValues)] /\
     erased st' = erased st) \/
  (replaced st' = replaced st /\ erased st' = erased st ++ [op]).

Definition reportsOn (op : OpId) (st st' : RewriterState) : Prop :=
  (exists msg, diagnostics st' = diagnostics st ++ [(op, msg)]) /\
  replaced st' = replaced st /\ erased st' = erased st.

(** ** The resume function and the patterns that need it

    [addResumeFunction] puts a function with a body into the module, so the
    module body is taken here with its function definitions: an operation of
    the body is a declaration as before, or an LLVM function together with
    its entry block (the block's identity, its argument types and its
    operations). *)
Inductive ModuleBodyOp : Type :=
  | Declaration (d : TopLevelOp)
  | LLVMFuncDefinition (sym_name : string) (type : Ty)
      (sym_visibility : Visibility) (entryBlock : BlockId)
      (entryArgTypes : list Ty) (body : list Operation).

Definition moduleSymbolName (o : ModuleBodyOp) : option string :=
  match o with
  | Declaration d => symbolName d
  | LLVMFuncDefinition name _ _ _ _ _ => Some name
  end.

(** Modelled from the spec: [ModuleOp::lookupSymbol] on a module body with
    function definitions. *)
Definition lookupModuleSymbol (name : string) (module : list ModuleBodyOp)
  : option ModuleBodyOp :=
  List.find (fun o => bool_decide (moduleSymbolName o = Some name)) module.

Definition build_LLVM_CoroResumeOp (handle : Value) : Operation :=
  mkOperation (OtherOp "llvm.intr.coro.resume") [handle] [] [] [] [].

Definition build_LLVM_ReturnOp (operands : list Value) : Operation :=
  mkOperation (OtherOp "llvm.return") operands [] [] [] [].

Definition build_LLVM_AddressOfOp (res : Ty) (name : string) : Operation :=
  mkOperation (OtherOp "llvm.mlir.addressof") [] [res]
    [("global_name", FlatSymbolRefAttr name)] [] [].

(** A function that takes a coroutine handle and calls a `llvm.coro.resume`
    intrinsics.  [entry] is the entry block [addEntryBlock] allocates. *)
Definition addResumeFunction (entry : BlockId) (module : list ModuleBodyOp)
  : list ModuleBodyOp :=
  match lookupModuleSymbol kResume module with
  | Some _ => module
  | None =>
      let voidTy := LLVMVoidType in
      let i8Ptr := LLVMPointerType (IntegerType 8) in
      let argument0 := mkValue (BlockArgument entry 0) i8Ptr in
      module ++
      [LLVMFuncDefinition kResume (LLVMFunctionType voidTy [i8Ptr] false)
         Private entry [i8Ptr]
         [build_LLVM_CoroResumeOp argument0; build_LLVM_ReturnOp []]]
  end.

(** [async.runtime.await_and_resume %operand, %handle] *)
Record RuntimeAwaitAndResumeOp : Type := mkRuntimeAwaitAndResumeOp {
  await_and_resume_op : OpId;
  await_and_resume_operand : Value;
  await_and_resume_handle : Value
}.

(** *** async.runtime.await_and_resume

    The pattern works on the module the operation is in as well as on the
    rewriter. *)
Definition RuntimeAwaitAndResumeOpLowering (entry : BlockId)
    (op : RuntimeAwaitAndResumeOp) (operands : list Value)
    (module : list ModuleBodyOp)
  : Rewrite (LogicalResult * list ModuleBodyOp) :=
  let operandType := getType (await_and_resume_operand op) in
  let lower apiFuncName :=
    let operand := operandAt operands 0 in
    let handle := operandAt operands 1 in
    (* A pointer to coroutine resume intrinsic wrapper. *)
    let module := addResumeFunction entry module in
    let resumeFnTy := AsyncAPI.resumeFunctionType in
    let resumePtrOp :=
      build_LLVM_AddressOfOp (LLVMPointerType resumeFnTy) kResume in
    resumePtr <- create resumePtrOp ;;
    create
      (build_CallOp apiFuncName []
         [operand; handle; getResult resumePtr resumePtrOp 0]) ;;;
    eraseOp (await_and_resume_op op) ;;;
    ret (success, module) in
  if isa_TokenType operandType then lower kAwaitTokenAndExecute
  else if isa_ValueType operandType then lower kAwaitValueAndExecute
  else if isa_GroupType operandType then lower kAwaitAllAndExecute
  else
    result <- notifyMatchFailure (await_and_resume_op op)
                "unsupported async type" ;;
    ret (result, module).

(** *** async.runtime.resume *)
Definition RuntimeResumeOpLowering (entry : BlockId) (op : OpId)
    (operands : list Value) (module : list ModuleBodyOp)
  : Rewrite (LogicalResult * list ModuleBodyOp) :=
  (* A pointer to coroutine resume intrinsic wrapper. *)
  let module := addResumeFunction entry module in
  let resumeFnTy := AsyncAPI.resumeFunctionType in
  let resumePtrOp :=
    build_LLVM_AddressOfOp (LLVMPointerType resumeFnTy) kResume in
  resumePtr <- create resumePtrOp ;;
  (* Call async runtime API to execute a coroutine in the managed thread. *)
  let coroHdl := operandAt operands 0 in
  replaceOpWithNewOp op
    (build_CallOp kExecute [] [coroHdl; getResult resumePtr resumePtrOp 0]) ;;;
  ret (success, module).

(** How many operations of the module body define the symbol [name]. *)
Definition moduleSymbolCount (name : string) (module : list ModuleBodyOp)
  : nat :=
  length
    (List.filter (fun o => bool_decide (moduleSymbolName o = Some name))
       module).

(** The converter [runOnOperation] gives to the create, store and load
    patterns: the LLVM type converter, here [base], with [convertAsyncTypes]
    registered on top of it. *)
Definition llvmConverter (base : TypeConverter) : TypeConverter :=
  addConversion (wrapOptionalCallback convertAsyncTypes) base.

(** The function [addResumeFunction] adds. *)
Definition resumeFunction (entry : BlockId) : ModuleBodyOp :=
  LLVMFuncDefinition kResume AsyncAPI.resumeFunctionType Private entry
    [AsyncAPI.opaquePointerType]
    [build_LLVM_CoroResumeOp
       (mkValue (BlockArgument entry 0) AsyncAPI.opaquePointerType);
     build_LLVM_ReturnOp []].

(** ** The lowering patterns, as the conversion driver applies them

    The patterns that rewrite one operation by creating new operations in
    front of it: the seventeen patterns [runOnOperation] inserts (return,
    the ten runtime patterns, the six coroutine patterns) and the yield
    patterns of the two structural conversions.  Each comes with the
    operation it is applied to; the two patterns that need the resume
    function also with the entry block [addResumeFunction] allocates when it
    builds the function. *)
Inductive LoweringPattern : Type :=
  | CoroIdOpPattern (op : OpId)
  | CoroBeginOpPattern (op : OpId)
  | CoroFreeOpPattern (op : OpId)
  | CoroEndOpPattern (op : OpId)
  | CoroSaveOpPattern (op : OpId)
  | CoroSuspendOpPattern (op : CoroSuspendOp)
  | RuntimeCreateOpPattern (converter : TypeConverter) (op : RuntimeCreateOp)
  | RuntimeSetAvailableOpPattern (op : RuntimeSetAvailableOp)
  | RuntimeAwaitOpPattern (op : RuntimeAwaitOp)
  | RuntimeAwaitAndResumeOpPattern (entry : BlockId)
      (op : RuntimeAwaitAndResumeOp)
  | RuntimeResumeOpPattern (entry : BlockId) (op : OpId)
  | RuntimeStoreOpPattern (converter : TypeConverter) (op : RuntimeStoreOp)
  | RuntimeLoadOpPattern (converter : TypeConverter) (op : RuntimeLoadOp)
  | RuntimeAddToGroupOpPattern (op : RuntimeAddToGroupOp)
  | RuntimeAddRefOpPattern (op : RefCountingOp)
  | RuntimeDropRefOpPattern (op : RefCountingOp)
  | ReturnOpPattern (op : OpId)
  | AsyncYieldOpPattern (op : OpId)
  | ScfYieldOpPattern (op : OpId).

(** A pattern that does not touch the module hands it back as it got it. *)
Definition keepsModule (module : list ModuleBodyOp)
    (m : Rewrite LogicalResult)
  : RewriteOrAbort (LogicalResult * list ModuleBodyOp) :=
  returned (result <- m ;; ret (result, module)).

(** Applying a pattern to its operation, in the module the operation is in:
    the result of the pattern and the module afterwards, or nothing when the
    pattern does not return. *)
Definition applyPattern (p : LoweringPattern) (operands : list Value)
    (module : list ModuleBodyOp)
  : RewriteOrAbort (LogicalResult * list ModuleBodyOp) :=
  match p with
  | CoroIdOpPattern op => keepsModule module (CoroIdOpConversion op operands)
  | CoroBeginOpPattern op =>
      keepsModule module (CoroBeginOpConversion op operands)
  | CoroFreeOpPattern op =>
      keepsModule module (CoroFreeOpConversion op operands)
  | CoroEndOpPattern op =>
      keepsModule module (CoroEndOpConversion op operands)
  | CoroSaveOpPattern op =>
      keepsModule module (CoroSaveOpConversion op operands)
  | CoroSuspendOpPattern op =>
      keepsModule module (CoroSuspendOpConversion op operands)
  | RuntimeCreateOpPattern converter op =>
      fun st =>
        match RuntimeCreateOpLowering converter op operands st with
        | None => None
        | Some (result, st') => Some ((result, module), st')
        end
  | RuntimeSetAvailableOpPattern op =>
      keepsModule module (RuntimeSetAvailableOpLowering op operands)
  | RuntimeAwaitOpPattern op =>
      keepsModule module (RuntimeAwaitOpLowering op operands)
  | RuntimeAwaitAndResumeOpPattern entry op =>
      returned (RuntimeAwaitAndResumeOpLowering entry op operands module)
  | RuntimeResumeOpPattern entry op =>
      returned (RuntimeResumeOpLowering entry op operands module)
  | RuntimeStoreOpPattern converter op =>
      keepsModule module (RuntimeStoreOpLowering converter op operands)
  | RuntimeLoadOpPattern converter op =>
      keepsModule module (RuntimeLoadOpLowering converter op operands)
  | RuntimeAddToGroupOpPattern op =>
      keepsModule module (RuntimeAddToGroupOpLowering op operands)
  | RuntimeAddRefOpPattern op =>
      keepsModule module (RuntimeAddRefOpLowering op operands)
  | RuntimeDropRefOpPattern op =>
      keepsModule module (RuntimeDropRefOpLowering op operands)
  | ReturnOpPattern op => keepsModule module (ReturnOpOpConversion op operands)
  | AsyncYieldOpPattern op =>
      keepsModule module (ConvertAsyncYieldOpTypes op operands)
  | ScfYieldOpPattern op =>
      keepsModule module (ConvertScfYieldOpTypes op operands)
  end.

(** The operation the pattern is applied to. *)
Definition rootOp (p : LoweringPattern) : OpId :=
  match p with
  | CoroIdOpPattern op | CoroBeginOpPattern op | CoroFreeOpPattern op
  | CoroEndOpPattern op | CoroSaveOpPattern op | ReturnOpPattern op
  | AsyncYieldOpPattern op | ScfYieldOpPattern op
  | RuntimeResumeOpPattern _ op => op
  | CoroSuspendOpPattern op => suspend_op op
  | RuntimeCreateOpPattern _ op => create_op op
  | RuntimeSetAvailableOpPattern op => set_available_op op
  | RuntimeAwaitOpPattern op => await_op op
  | RuntimeAwaitAndResumeOpPattern _ op => await_and_resume_op op
  | RuntimeStoreOpPattern _ op => store_op op
  | RuntimeLoadOpPattern _ op => load_op op
  | RuntimeAddToGroupOpPattern op => add_to_group_op op
  | RuntimeAddRefOpPattern op | RuntimeDropRefOpPattern op => refcount_op op
  end.

(** The entry block of the resume function, for the two patterns that call
    [addResumeFunction]. *)
Definition resumeEntry (p : LoweringPattern) : option BlockId :=
  match p with
  | RuntimeAwaitAndResumeOpPattern entry _
  | RuntimeResumeOpPattern entry _ => Some entry
  | _ => None
  end.

(** The module a pattern leaves: the two resume patterns add the resume
    function when they succeed, every other pattern and every failure
    leaves the module as it was. *)
Definition moduleAfter (p : LoweringPattern) (result : LogicalResult)
    (module : list ModuleBodyOp) : list ModuleBodyOp :=
  match resumeEntry p, result with
  | Some entry, success => addResumeFunction entry module
  | _, _ => module
  end.

(** The names a pattern may refer to in the operations it creates: the
    functions of the declaration step, and the resume function for a resume
    pattern that succeeds. *)
Definition symbolsOf (p : LoweringPattern) (result : LogicalResult)
  : list string :=
  match resumeEntry p, result with
  | Some _, success => kResume :: declaredNames
  | _, _ => declaredNames
  end.

Definition usesSymbols (names : list string) (new : list Operation)
  : Prop :=
  Forall (fun o => Forall (fun name => name ∈ names) (symbolUses o)) new.

(** Every function of the declaration step is defined in the module. *)
Definition declaresRuntime (module : list ModuleBodyOp) : Prop :=
  Forall (fun name => is_Some (lookupModuleSymbol name module))
    declaredNames.

Definition patternOutcome (p : LoweringPattern)
    (module : list ModuleBodyOp) (st : RewriterState)
    (result : LogicalResult) (module' : list ModuleBodyOp)
    (st' : RewriterState) : Prop :=
  exists new,
    appendsOnly st st' new /\
    usesSymbols (symbolsOf p result) new /\
    module' = moduleAfter p result module /\
    match result with
    | success =>
        diagnostics st' = diagnostics st /\ disposesOf (rootOp p) st st'
    | failure => reportsOn (rootOp p) st st'
    end.

(** * Properties *)

(** ** The type converter *)

Lemma convertType_AsyncRuntimeTypeConverter (t : Ty) :
  convertType AsyncRuntimeTypeConverter t =
    match convertAsyncTypes t with
    | Some r => r
    | None => t
    end.
Proof. destruct t; reflexivity. Qed.

(** C3: the async type converter is total and never fails.  Token, Value and
    Group types go to the opaque i8 pointer type, the coroutine id and
    coroutine state types go to the LLVM token type, the coroutine handle
    type goes to the opaque pointer type, and every other type is mapped to
    itself; no (non-null) type is sent to the null type. *)
Theorem AsyncRuntimeTypeConverter_total (t : Ty) :
  (isa_TokenType t || isa_ValueType t || isa_GroupType t = true ->
     convertType AsyncRuntimeTypeConverter t = AsyncAPI.opaquePointerType) /\
  (isa_CoroIdType t || isa_CoroStateType t = true ->
     convertType AsyncRuntimeTypeConverter t = AsyncAPI.tokenType) /\
  (isa_CoroHandleType t = true ->
     convertType AsyncRuntimeTypeConverter t = AsyncAPI.opaquePointerType) /\
  (isa_TokenType t || isa_ValueType t || isa_GroupType t = false ->
   isa_CoroIdType t || isa_CoroStateType t = false ->
   isa_CoroHandleType t = false ->
     convertType AsyncRuntimeTypeConverter t = t) /\
  (t <> NullTy -> convertType AsyncRuntimeTypeConverter t <> NullTy).
Proof.
  rewrite convertType_AsyncRuntimeTypeConverter.
  repeat split; destruct t; cbv; intros; congruence.
Qed.

Lemma AsyncRuntimeTypeConverter_total_witness :
  convertType AsyncRuntimeTypeConverter (ValueType (IntegerType 32))
    = AsyncAPI.opaquePointerType /\
  convertType AsyncRuntimeTypeConverter CoroStateType = AsyncAPI.tokenType /\
  convertType AsyncRuntimeTypeConverter CoroHandleType
    = AsyncAPI.opaquePointerType /\
  convertType AsyncRuntimeTypeConverter (IntegerType 32) = IntegerType 32 /\
  convertType AsyncRuntimeTypeConverter IndexType <> NullTy.
Proof.
  pose proof (AsyncRuntimeTypeConverter_total (ValueType (IntegerType 32)))
    as (Hvalue & _).
  pose proof (AsyncRuntimeTypeConverter_total CoroStateType)
    as (_ & Hstate & _).
  pose proof (AsyncRuntimeTypeConverter_total CoroHandleType)
    as (_ & _ & Hhandle & _).
  pose proof (AsyncRuntimeTypeConverter_total (IntegerType 32))
    as (_ & _ & _ & Hother & _).
  pose proof (AsyncRuntimeTypeConverter_total IndexType)
    as (_ & _ & _ & _ & Hnonnull).
  split; [apply Hvalue; reflexivity |].
  split; [apply Hstate; reflexivity |].
  split; [apply Hhandle; reflexivity |].
  split; [apply Hother; reflexivity |].
  apply Hnonnull; discriminate.
Defined.

(** ** Running a pattern

    Creating operations appends to the arena, so the slots of the new
    operations follow the length of the arena the pattern started from. *)

Lemma length_snoc {A : Type} (l : list A) (x : A) :
  length (l ++ [x]) = S (length l).
Proof. rewrite length_app. cbn. lia. Qed.

Ltac run_pattern :=
  cbv beta delta [bind ret create replaceOp replaceOpWithNewOp eraseOp
                  notifyMatchFailure returned] iota;
  cbn [arena inserted replaced erased diagnostics fst snd];
  repeat rewrite length_snoc;
  repeat rewrite <- app_assoc;
  cbn [app].

Lemma sext_i8_i32_table :
  forallb
    (fun n : nat =>
       Z.eqb (sext_i8_i32 (Z.of_nat n))
         (if Z.of_nat n <? 128 then Z.of_nat n else Z.of_nat n - 256))
    (seq 0%nat 256%nat) = true.
Proof. vm_compute. reflexivity. Qed.

Lemma sext_i8_i32_signed (r : Z) :
  0 <= r < 256 -> sext_i8_i32 r = if r <? 128 then r else r - 256.
Proof.
  intros Hr.
  pose proof sext_i8_i32_table as Htable.
  rewrite forallb_forall in Htable.
  specialize (Htable (Z.to_nat r)).
  rewrite Z2Nat.id in Htable by lia.
  apply Z.eqb_eq, Htable. apply in_seq. lia.
Qed.

(** ** Coroutine suspension *)

Lemma switchDestination_build (value : Value) (defaultDestination : BlockId)
    (defaultOperands : list Value) (caseValues : list Z)
    (caseDestinations : list BlockId) (caseOperands : list (list Value))
    (branchWeights : list Z) (v : Z) :
  switchDestination
    (build_LLVM_SwitchOp value defaultDestination defaultOperands caseValues
       caseDestinations caseOperands branchWeights) v =
    Some (default defaultDestination
            (selectCase caseValues caseDestinations v)).
Proof. reflexivity. Qed.

Lemma selectCase_resume_cleanup (resume cleanup : BlockId) (v : Z) :
  selectCase [0; 1] [resume; cleanup] v =
    if v =? 0 then Some resume else if v =? 1 then Some cleanup else None.
Proof.
  cbn [selectCase]. rewrite (Z.eqb_sym 0 v), (Z.eqb_sym 1 v). reflexivity.
Qed.

(** C1: the lowering of async.coro.suspend ends in a switch on the i8 result
    of the coro-suspend intrinsic sign-extended to i32.  Result 0 goes to the
    resume successor, result 1 to the cleanup successor, and every other
    result, -1 (bit pattern 255) among them, goes to the default destination,
    which is the suspend successor. *)
Theorem CoroSuspendOp_switch (op : CoroSuspendOp) (operands : list Value)
    (st : RewriterState) :
  let n := length (arena st) in
  let constFalse := build_LLVM_ConstantOp i1 (getBoolAttr false) in
  let coroSuspend :=
    build_LLVM_CoroSuspendOp i8
      [operandAt operands 0; getResult n constFalse 0] in
  let sext := build_LLVM_SExtOp i32 (getResult (S n) coroSuspend 0) in
  let switch :=
    build_LLVM_SwitchOp (getResult (S (S n)) sext 0) (suspendDest op) []
      [0; 1] [resumeDest op; cleanupDest op] [] [] in
  CoroSuspendOpConversion op operands st =
    (success,
     mkState (arena st ++ [constFalse; coroSuspend; sext; switch])
       (inserted st ++ [n; S n; S (S n); S (S (S n))])
       (replaced st ++ [(suspend_op op, [])])
       (erased st) (diagnostics st)) /\
  opSuccessors switch = [suspendDest op; resumeDest op; cleanupDest op] /\
  (forall r : Z, 0 <= r < 256 ->
     switchDestination switch (sext_i8_i32 r) =
       Some (if r =? 0 then resumeDest op
             else if r =? 1 then cleanupDest op
             else suspendDest op)) /\
  sext_i8_i32 255 = -1 /\
  switchDestination switch (-1) = Some (suspendDest op).
Proof.
  intros n constFalse coroSuspend sext switch.
  split; [| split; [| split; [| split]]]; try reflexivity.
  - unfold CoroSuspendOpConversion. run_pattern. reflexivity.
  - intros r Hr. rewrite sext_i8_i32_signed by exact Hr.
    unfold switch.
    rewrite switchDestination_build, selectCase_resume_cleanup.
    destruct (Z.ltb_spec r 128), (Z.eqb_spec r 0), (Z.eqb_spec r 1);
      subst; try lia; try reflexivity.
    destruct (Z.eqb_spec (r - 256) 0); [lia |].
    destruct (Z.eqb_spec (r - 256) 1); [lia | reflexivity].
Qed.

Lemma CoroSuspendOp_switch_witness :
  let op := mkCoroSuspendOp 0%nat nullValue 10%nat 11%nat 12%nat in
  let switch :=
    build_LLVM_SwitchOp
      (getResult 2%nat (build_LLVM_SExtOp i32 nullValue) 0) 10%nat []
      [0; 1] [11%nat; 12%nat] [] [] in
  switchDestination switch (sext_i8_i32 0) = Some 11%nat /\
  switchDestination switch (sext_i8_i32 1) = Some 12%nat /\
  switchDestination switch (sext_i8_i32 255) = Some 10%nat.
Proof.
  intros op switch.
  pose proof (CoroSuspendOp_switch op [] (mkState [] [] [] [] []))
    as (_ & _ & Hdest & _).
  split; [apply (Hdest 0); lia |].
  split; [apply (Hdest 1); lia |].
  apply (Hdest 255); lia.
Defined.

(** ** Runtime operations *)

Lemma emittedOps_appended (st : RewriterState) (new : list Operation)
    (r : list (OpId * list Value)) (e : list OpId)
    (d : list (OpId * string)) :
  emittedOps st
    (mkState (arena st ++ new)
       (inserted st ++ seq (length (arena st)) (length new)) r e d) = new.
Proof.
  unfold emittedOps, getOperation. cbn [arena inserted].
  rewrite drop_app_length.
  generalize (arena st) as a. induction new as [| o new IH]; intros a.
  - reflexivity.
  - cbn [length seq map]. f_equal.
    + rewrite lookup_app_r by lia. rewrite Nat.sub_diag. reflexivity.
    + rewrite <- (length_snoc a o).
      replace (a ++ o :: new) with ((a ++ [o]) ++ new)
        by (rewrite <- app_assoc; reflexivity).
      apply IH.
Qed.

(** C5: set_available on a Token lowers to a call to the token emplace
    function, on a Value to a call to the value emplace function; on a Group,
    or any other kind of operand, the lowering fails with the
    unsupported-type diagnostic and creates no operation. *)
Theorem RuntimeSetAvailableOp_lowering (op : RuntimeSetAvailableOp)
    (operands : list Value) (st : RewriterState) :
  let n := length (arena st) in
  let operandType := getType (set_available_operand op) in
  let unsupported :=
    (failure,
     mkState (arena st) (inserted st) (replaced st) (erased st)
       (diagnostics st ++
          [(set_available_op op, "unsupported async type")])) in
  (isa_TokenType operandType = true ->
     RuntimeSetAvailableOpLowering op operands st =
       (success,
        mkState (arena st ++ [build_CallOp kEmplaceToken [] operands])
          (inserted st ++ [n]) (replaced st)
          (erased st ++ [set_available_op op]) (diagnostics st))) /\
  (isa_ValueType operandType = true ->
     RuntimeSetAvailableOpLowering op operands st =
       (success,
        mkState (arena st ++ [build_CallOp kEmplaceValue [] operands])
          (inserted st ++ [n]) (replaced st)
          (erased st ++ [set_available_op op]) (diagnostics st))) /\
  (operandType = GroupType ->
     RuntimeSetAvailableOpLowering op operands st = unsupported) /\
  (isa_TokenType operandType = false ->
   isa_ValueType operandType = false ->
     RuntimeSetAvailableOpLowering op operands st = unsupported).
Proof.
  intros n operandType unsupported.
  unfold RuntimeSetAvailableOpLowering. fold operandType.
  repeat split.
  - intros ->. cbn [orb]. run_pattern. reflexivity.
  - intros Hvalue. rewrite Hvalue.
    destruct (isa_TokenType operandType) eqn:Htoken.
    + destruct operandType; discriminate.
    + cbn [orb]. run_pattern. reflexivity.
  - intros ->. reflexivity.
  - intros -> ->. reflexivity.
Qed.

Lemma RuntimeSetAvailableOp_lowering_witness :
  let st := mkState [emptyOperation] [] [] [] [] in
  let token := mkValue (BlockArgument 0%nat 0%nat) TokenType in
  let group := mkValue (BlockArgument 0%nat 1%nat) GroupType in
  let handle := mkValue (BlockArgument 0%nat 1%nat)
                  AsyncAPI.opaquePointerType in
  RuntimeSetAvailableOpLowering (mkRuntimeSetAvailableOp 0%nat token)
      [handle] st =
    (success,
     mkState [emptyOperation; build_CallOp kEmplaceToken [] [handle]]
       [1%nat] [] [0%nat] []) /\
  RuntimeSetAvailableOpLowering (mkRuntimeSetAvailableOp 0%nat group)
      [handle] st =
    (failure,
     mkState [emptyOperation] [] [] []
       [(0%nat, "unsupported async type")]).
Proof.
  intros st token group handle.
  pose proof (RuntimeSetAvailableOp_lowering
                (mkRuntimeSetAvailableOp 0%nat token) [handle] st)
    as (Htoken & _).
  pose proof (RuntimeSetAvailableOp_lowering
                (mkRuntimeSetAvailableOp 0%nat group) [handle] st)
    as (_ & _ & Hgroup & _).
  split; [apply Htoken | apply Hgroup]; reflexivity.
Defined.

Lemma sizeOf_known (converter : TypeConverter) (T : Ty)
    (st : RewriterState) :
  convertType converter T <> NullTy ->
  let n := length (arena st) in
  let storagePtrType := LLVMPointerType (convertType converter T) in
  let nullPtr := build_LLVM_NullOp storagePtrType in
  let one := build_LLVM_ConstantOp i32 (IntegerAttr i32 1) in
  let gep :=
    build_LLVM_GEPOp storagePtrType (getResult n nullPtr 0)
      [getResult (S n) one 0] in
  let size := build_LLVM_PtrToIntOp i32 (getResult (S (S n)) gep 0) in
  sizeOf converter T st =
    Some (getResult (S (S (S n))) size 0,
          mkState (arena st ++ [nullPtr; one; gep; size])
            (inserted st ++ seq n 4) (replaced st) (erased st)
            (diagnostics st)).
Proof.
  intros Hknown. cbv zeta. unfold sizeOf, LLVMPointerType_get.
  destruct (convertType converter T) eqn:Hty; try contradiction;
    cbn [isNull]; run_pattern; reflexivity.
Qed.

Lemma sizeOf_unknown (converter : TypeConverter) (T : Ty)
    (st : RewriterState) :
  convertType converter T = NullTy -> sizeOf converter T st = None.
Proof.
  intros Hnull. unfold sizeOf, LLVMPointerType_get. rewrite Hnull.
  reflexivity.
Qed.

Lemma RuntimeCreateOp_value_run (converter : TypeConverter)
    (op : RuntimeCreateOp) (operands : list Value) (st : RewriterState)
    (T : Ty) :
  create_resultType op = ValueType T ->
  convertType converter T <> NullTy ->
  let n := length (arena st) in
  let storagePtrType := LLVMPointerType (convertType converter T) in
  let nullPtr := build_LLVM_NullOp storagePtrType in
  let one := build_LLVM_ConstantOp i32 (IntegerAttr i32 1) in
  let gep :=
    build_LLVM_GEPOp storagePtrType (getResult n nullPtr 0)
      [getResult (S n) one 0] in
  let size := build_LLVM_PtrToIntOp i32 (getResult (S (S n)) gep 0) in
  let call :=
    build_CallOp kCreateValue [ValueType T]
      [getResult (S (S (S n))) size 0] in
  RuntimeCreateOpLowering converter op operands st =
    Some
      (success,
       mkState (arena st ++ [nullPtr; one; gep; size; call])
         (inserted st ++ seq n 5)
         (replaced st ++
            [(create_op op, [getResult (S (S (S (S n)))) call 0])])
         (erased st) (diagnostics st)).
Proof.
  intros HT Hknown n storagePtrType nullPtr one gep size call.
  unfold RuntimeCreateOpLowering. rewrite HT.
  cbn [isa_TokenType isa_GroupType orb dyn_cast_ValueType].
  rewrite (sizeOf_known converter T st Hknown). cbv zeta.
  run_pattern. rewrite !length_app. cbn [length].
  replace (length (arena st) + 4)%nat with (S (S (S (S (length (arena st))))))
    by lia.
  reflexivity.
Qed.

Lemma RuntimeCreateOp_value_abort (converter : TypeConverter)
    (op : RuntimeCreateOp) (operands : list Value) (st : RewriterState)
    (T : Ty) :
  create_resultType op = ValueType T ->
  convertType converter T = NullTy ->
  RuntimeCreateOpLowering converter op operands st = None.
Proof.
  intros HT Hnull. unfold RuntimeCreateOpLowering. rewrite HT.
  cbn [isa_TokenType isa_GroupType orb dyn_cast_ValueType].
  rewrite (sizeOf_unknown converter T st Hnull). reflexivity.
Qed.



(** ** Payload storage *)

Lemma isNull_true (t : Ty) : isNull t = true -> t = NullTy.
Proof. destruct t; cbn; congruence. Qed.

Lemma isNull_false (t : Ty) : isNull t = false -> t <> NullTy.
Proof. destruct t; cbn; congruence. Qed.

Lemma RuntimeStoreOp_run (converter : TypeConverter) (op : RuntimeStoreOp)
    (operands : list Value) (st : RewriterState) :
  let n := length (arena st) in
  let llvmValueType := convertType converter (getType (store_value op)) in
  let storagePtr :=
    build_CallOp kGetValueStorage [AsyncAPI.opaquePointerType]
      [operandAt operands 1] in
  let casted :=
    build_LLVM_BitcastOp (LLVMPointerType llvmValueType)
      (getResult n storagePtr 0) in
  let store :=
    build_LLVM_StoreOp (operandAt operands 0) (getResult (S n) casted 0) in
  RuntimeStoreOpLowering converter op operands st =
    if isNull llvmValueType then
      (failure,
       mkState (arena st ++ [storagePtr]) (inserted st ++ [n])
         (replaced st) (erased st)
         (diagnostics st ++
            [(store_op op,
              "failed to convert stored value type to LLVM type")]))
    else
      (success,
       mkState (arena st ++ [storagePtr; casted; store])
         (inserted st ++ [n; S n; S (S n)]) (replaced st)
         (erased st ++ [store_op op]) (diagnostics st)).
Proof.
  cbv zeta. unfold RuntimeStoreOpLowering. run_pattern.
  destruct (isNull (convertType converter (getType (store_value op))));
    run_pattern; reflexivity.
Qed.

Lemma RuntimeLoadOp_run (converter : TypeConverter) (op : RuntimeLoadOp)
    (operands : list Value) (st : RewriterState) :
  let n := length (arena st) in
  let llvmValueType := convertType converter (load_result op) in
  let storagePtr :=
    build_CallOp kGetValueStorage [AsyncAPI.opaquePointerType]
      [operandAt operands 0] in
  let casted :=
    build_LLVM_BitcastOp (LLVMPointerType llvmValueType)
      (getResult n storagePtr 0) in
  let load := build_LLVM_LoadOp (getResult (S n) casted 0) in
  RuntimeLoadOpLowering converter op operands st =
    if isNull llvmValueType then
      (failure,
       mkState (arena st ++ [storagePtr]) (inserted st ++ [n])
         (replaced st) (erased st)
         (diagnostics st ++
            [(load_op op,
              "failed to convert loaded value type to LLVM type")]))
    else
      (success,
       mkState (arena st ++ [storagePtr; casted; load])
         (inserted st ++ [n; S n; S (S n)])
         (replaced st ++ [(load_op op, [getResult (S (S n)) load 0])])
         (erased st) (diagnostics st)).
Proof.
  cbv zeta. unfold RuntimeLoadOpLowering. run_pattern.
  destruct (isNull (convertType converter (load_result op)));
    run_pattern; reflexivity.
Qed.

(** C7: the store and the load lowering first call the storage accessor with
    the storage operand, then, when the type converter knows the payload
    type, bitcast the returned i8 pointer to a pointer to the converted
    payload type and write the value through it (store) or read from it
    (load).  Each fails, with its diagnostic, exactly when the payload type
    does not convert. *)
Theorem RuntimeStoreLoadOp_lowering (converter : TypeConverter)
    (operands : list Value) (st : RewriterState) :
  let n := length (arena st) in
  let i8Ptr := AsyncAPI.opaquePointerType in
  (forall op : RuntimeStoreOp,
     let llvmValueType := convertType converter (getType (store_value op)) in
     let storagePtr :=
       build_CallOp kGetValueStorage [i8Ptr] [operandAt operands 1] in
     let casted :=
       build_LLVM_BitcastOp (LLVMPointerType llvmValueType)
         (getResult n storagePtr 0) in
     let store :=
       build_LLVM_StoreOp (operandAt operands 0)
         (getResult (S n) casted 0) in
     (llvmValueType <> NullTy ->
        RuntimeStoreOpLowering converter op operands st =
          (success,
           mkState (arena st ++ [storagePtr; casted; store])
             (inserted st ++ [n; S n; S (S n)]) (replaced st)
             (erased st ++ [store_op op]) (diagnostics st))) /\
     (llvmValueType = NullTy ->
        RuntimeStoreOpLowering converter op operands st =
          (failure,
           mkState (arena st ++ [storagePtr]) (inserted st ++ [n])
             (replaced st) (erased st)
             (diagnostics st ++
                [(store_op op,
                  "failed to convert stored value type to LLVM type")]))) /\
     (fst (RuntimeStoreOpLowering converter op operands st) = failure <->
        llvmValueType = NullTy)) /\
  (forall op : RuntimeLoadOp,
     let llvmValueType := convertType converter (load_result op) in
     let storagePtr :=
       build_CallOp kGetValueStorage [i8Ptr] [operandAt operands 0] in
     let casted :=
       build_LLVM_BitcastOp (LLVMPointerType llvmValueType)
         (getResult n storagePtr 0) in
     let load := build_LLVM_LoadOp (getResult (S n) casted 0) in
     (llvmValueType <> NullTy ->
        opResultTypes load = [llvmValueType] /\
        RuntimeLoadOpLowering converter op operands st =
          (success,
           mkState (arena st ++ [storagePtr; casted; load])
             (inserted st ++ [n; S n; S (S n)])
             (replaced st ++
                [(load_op op, [getResult (S (S n)) load 0])])
             (erased st) (diagnostics st))) /\
     (llvmValueType = NullTy ->
        RuntimeLoadOpLowering converter op operands st =
          (failure,
           mkState (arena st ++ [storagePtr]) (inserted st ++ [n])
             (replaced st) (erased st)
             (diagnostics st ++
                [(load_op op,
                  "failed to convert loaded value type to LLVM type")]))) /\
     (fst (RuntimeLoadOpLowering converter op operands st) = failure <->
        llvmValueType = NullTy)).
Proof.
  intros n i8Ptr. split.
  - intros op. cbv zeta. rewrite RuntimeStoreOp_run. cbv zeta.
    destruct (isNull (convertType converter (getType (store_value op))))
      eqn:Hnull.
    + apply isNull_true in Hnull.
      split; [congruence |]. split; [reflexivity | tauto].
    + apply isNull_false in Hnull.
      split; [reflexivity |]. split; [congruence |].
      cbn [fst]. split; [discriminate | congruence].
  - intros op. cbv zeta. rewrite RuntimeLoadOp_run. cbv zeta.
    destruct (isNull (convertType converter (load_result op))) eqn:Hnull.
    + apply isNull_true in Hnull.
      split; [congruence |]. split; [reflexivity | tauto].
    + apply isNull_false in Hnull.
      split; [split; reflexivity |]. split; [congruence |].
      cbn [fst]. split; [discriminate | congruence].
Qed.

Lemma RuntimeStoreLoadOp_lowering_witness :
  let st := mkState [emptyOperation] [] [] [] [] in
  let storage := mkValue (BlockArgument 0%nat 0%nat)
                   AsyncAPI.opaquePointerType in
  let v := mkValue (BlockArgument 0%nat 1%nat) (IntegerType 32) in
  let accessor :=
    build_CallOp kGetValueStorage [AsyncAPI.opaquePointerType] [storage] in
  let casted :=
    build_LLVM_BitcastOp (LLVMPointerType (IntegerType 32))
      (mkValue (OpResult 1%nat 0%nat) AsyncAPI.opaquePointerType) in
  RuntimeStoreOpLowering AsyncRuntimeTypeConverter
      (mkRuntimeStoreOp 0%nat v storage) [v; storage] st =
    (success,
     mkState
       [emptyOperation; accessor; casted;
        build_LLVM_StoreOp v
          (mkValue (OpResult 2%nat 0%nat)
             (LLVMPointerType (IntegerType 32)))]
       [1%nat; 2%nat; 3%nat] [] [0%nat] []) /\
  RuntimeLoadOpLowering emptyTypeConverter
      (mkRuntimeLoadOp 0%nat storage (IntegerType 32)) [storage] st =
    (failure,
     mkState [emptyOperation; accessor] [1%nat] [] []
       [(0%nat, "failed to convert loaded value type to LLVM type")]).
Proof.
  intros st storage v accessor casted.
  pose proof (RuntimeStoreLoadOp_lowering AsyncRuntimeTypeConverter
                [v; storage] st) as (Hstore & _).
  pose proof (RuntimeStoreLoadOp_lowering emptyTypeConverter [storage] st)
    as (_ & Hload).
  split.
  - apply (Hstore (mkRuntimeStoreOp 0%nat v storage)). discriminate.
  - apply (Hload (mkRuntimeLoadOp 0%nat storage (IntegerType 32))).
    reflexivity.
Defined.

(** C10, as worded, does not hold: the lowering of a Value creation does
    not return success on every input.  With a converter that knows the
    async types only, creating a Value of an opaque tensor type hands no
    result back: the pointer type to the converted payload is asked for
    before any operation is created, and the converter has no type for that
    payload. *)
Lemma RuntimeCreateOp_unknown_payload_no_success :
  let converter :=
    addConversion (wrapOptionalCallback convertAsyncTypes)
      emptyTypeConverter in
  let T := OpaqueType "builtin" "tensor" in
  let op := mkRuntimeCreateOp 0%nat (ValueType T) in
  let st := mkState [emptyOperation] [] [] [] [] in
  create_resultType op = ValueType T /\
  convertType converter T = NullTy /\
  RuntimeCreateOpLowering converter op [] st = None /\
  (forall st' : RewriterState,
     RuntimeCreateOpLowering converter op [] st <> Some (success, st')).
Proof.
  cbv zeta. split; [reflexivity |]. split; [reflexivity |].
  assert (Habort :
    RuntimeCreateOpLowering
      (addConversion (wrapOptionalCallback convertAsyncTypes)
         emptyTypeConverter)
      (mkRuntimeCreateOp 0%nat (ValueType (OpaqueType "builtin" "tensor")))
      [] (mkState [emptyOperation] [] [] [] []) = None).
  { apply (RuntimeCreateOp_value_abort _ _ _ _
             (OpaqueType "builtin" "tensor")); reflexivity. }
  split; [exact Habort |].
  intros st' Hsuccess. rewrite Habort in Hsuccess. discriminate.
Qed.

(** C10 (amended): the lowering of a Value creation applies no
    unknown-payload guard.  It has no failing exit: whenever it returns, it
    returns success and has reported nothing; and it does return success
    whenever the converter has a type for the payload, its size computation
    starting from the null pointer of the pointer type to that converted
    type.  The store and the load lowering of a value of that payload type,
    by contrast, fail when the converter has no type for it, with their
    diagnostic attached to their operation. *)
Theorem RuntimeCreateOp_no_payload_guard (converter : TypeConverter)
    (op : RuntimeCreateOp) (operands : list Value) (st : RewriterState)
    (T : Ty) :
  create_resultType op = ValueType T ->
  (forall (result : LogicalResult) (st' : RewriterState),
     RuntimeCreateOpLowering converter op operands st = Some (result, st') ->
     result = success /\ diagnostics st' = diagnostics st) /\
  (convertType converter T <> NullTy ->
     exists st' : RewriterState,
       RuntimeCreateOpLowering converter op operands st =
         Some (success, st') /\
       nth 0 (emittedOps st st') emptyOperation =
         build_LLVM_NullOp (LLVMPointerType (convertType converter T))) /\
  (convertType converter T = NullTy ->
     (forall store : RuntimeStoreOp,
        getType (store_value store) = T ->
        let result := RuntimeStoreOpLowering converter store operands st in
        fst result = failure /\
        diagnostics (snd result) =
          diagnostics st ++
            [(store_op store,
              "failed to convert stored value type to LLVM type")]) /\
     (forall load : RuntimeLoadOp,
        load_result load = T ->
        let result := RuntimeLoadOpLowering converter load operands st in
        fst result = failure /\
        diagnostics (snd result) =
          diagnostics st ++
            [(load_op load,
              "failed to convert loaded value type to LLVM type")])).
Proof.
  intros HT. split; [| split].
  - intros result st' Hrun.
    destruct (isNull (convertType converter T)) eqn:Hty;
      [apply isNull_true in Hty as Hnull |
       apply isNull_false in Hty as Hknown].
    + rewrite (RuntimeCreateOp_value_abort converter op operands st T
                 HT Hnull) in Hrun.
      discriminate.
    + rewrite (RuntimeCreateOp_value_run converter op operands st T
                 HT Hknown) in Hrun.
      injection Hrun as <- <-. split; reflexivity.
  - intros Hknown. eexists. split.
    + exact (RuntimeCreateOp_value_run converter op operands st T HT Hknown).
    + rewrite (emittedOps_appended st [_; _; _; _; _]). reflexivity.
  - intros Hnull. split.
    + intros store Hstore. cbv zeta. rewrite RuntimeStoreOp_run. cbv zeta.
      rewrite Hstore, Hnull. split; reflexivity.
    + intros load Hload. cbv zeta. rewrite RuntimeLoadOp_run. cbv zeta.
      rewrite Hload, Hnull. split; reflexivity.
Qed.

Lemma RuntimeCreateOp_no_payload_guard_witness :
  let converter :=
    addConversion (wrapOptionalCallback convertAsyncTypes)
      emptyTypeConverter in
  let st := mkState [emptyOperation] [] [] [] [] in
  let T := OpaqueType "builtin" "tensor" in
  let storage := mkValue (BlockArgument 0%nat 0%nat)
                   AsyncAPI.opaquePointerType in
  let v := mkValue (BlockArgument 0%nat 1%nat) T in
  (exists st' : RewriterState,
     RuntimeCreateOpLowering converter
       (mkRuntimeCreateOp 0%nat (ValueType TokenType)) [] st =
       Some (success, st')) /\
  convertType converter T = NullTy /\
  fst (RuntimeStoreOpLowering converter (mkRuntimeStoreOp 0%nat v storage)
         [] st) = failure.
Proof.
  intros converter st T storage v.
  pose proof (RuntimeCreateOp_no_payload_guard converter
                (mkRuntimeCreateOp 0%nat (ValueType TokenType)) [] st
                TokenType eq_refl)
    as (_ & Hknown & _).
  pose proof (RuntimeCreateOp_no_payload_guard converter
                (mkRuntimeCreateOp 0%nat (ValueType T)) [] st T eq_refl)
    as (_ & _ & Hunknown).
  split.
  { destruct Hknown as (st' & Hrun & _); [discriminate |].
    exists st'. exact Hrun. }
  split; [reflexivity |].
  destruct (Hunknown eq_refl) as (Hstore & _).
  apply (Hstore (mkRuntimeStoreOp 0%nat v storage)). reflexivity.
Defined.

(** ** Reference counting *)

Lemma wrapInt32_id (v : Z) : - 2 ^ 31 <= v < 2 ^ 31 -> wrapInt32 v = v.
Proof. intros Hv. unfold wrapInt32. rewrite Z.mod_small; lia. Qed.

(** C8: add_ref and drop_ref with count n lower to one i32 constant holding
    n followed by one call to the reference counting function of the
    operation, whose arguments are the operand and that constant; these two
    operations are all that is created, so a count of n is never split into
    n calls. *)
Theorem RefCountingOp_lowering (op : RefCountingOp) (operands : list Value)
    (st : RewriterState) :
  - 2 ^ 31 <= count op < 2 ^ 31 ->
  let n := length (arena st) in
  let countOp := build_ConstantOp i32 (IntegerAttr i32 (count op)) in
  let call api :=
    build_CallOp api [] [operandAt operands 0; getResult n countOp 0] in
  let lowered api :=
    mkState (arena st ++ [countOp; call api]) (inserted st ++ [n; S n])
      (replaced st ++ [(refcount_op op, [])]) (erased st)
      (diagnostics st) in
  RuntimeAddRefOpLowering op operands st = (success, lowered kAddRef) /\
  RuntimeDropRefOpLowering op operands st = (success, lowered kDropRef) /\
  emittedOps st (lowered kAddRef) = [countOp; call kAddRef] /\
  emittedOps st (lowered kDropRef) = [countOp; call kDropRef] /\
  length (filter (fun o => isCallTo kAddRef o = true)
            (emittedOps st (lowered kAddRef))) = 1%nat /\
  length (filter (fun o => isCallTo kDropRef o = true)
            (emittedOps st (lowered kDropRef))) = 1%nat.
Proof.
  intros Hcount n countOp call lowered.
  assert (Hrun : forall api,
            RefCountingOpLowering api op operands st = (success, lowered api)).
  { intros api. unfold RefCountingOpLowering, getI32IntegerAttr.
    rewrite (wrapInt32_id _ Hcount). run_pattern. reflexivity. }
  assert (Hemitted : forall api,
            emittedOps st (lowered api) = [countOp; call api]).
  { intros api. apply (emittedOps_appended st [_; _]). }
  split; [apply Hrun |]. split; [apply Hrun |].
  split; [apply Hemitted |]. split; [apply Hemitted |].
  rewrite !Hemitted. split; reflexivity.
Qed.

Lemma RefCountingOp_lowering_witness :
  let st := mkState [emptyOperation; emptyOperation] [] [] [] [] in
  let x := mkValue (BlockArgument 0%nat 0%nat) AsyncAPI.opaquePointerType in
  let three := build_ConstantOp i32 (IntegerAttr i32 3) in
  let delta := mkValue (OpResult 2%nat 0%nat) i32 in
  RuntimeAddRefOpLowering (mkRefCountingOp 0%nat x 3) [x] st =
    (success,
     mkState
       [emptyOperation; emptyOperation; three;
        build_CallOp kAddRef [] [x; delta]]
       [2%nat; 3%nat] [(0%nat, [])] [] []) /\
  RuntimeDropRefOpLowering (mkRefCountingOp 1%nat x 3) [x] st =
    (success,
     mkState
       [emptyOperation; emptyOperation; three;
        build_CallOp kDropRef [] [x; delta]]
       [2%nat; 3%nat] [(1%nat, [])] [] []).
Proof.
  intros st x three delta.
  assert (Hrange : - 2 ^ 31 <= 3 < 2 ^ 31) by lia.
  pose proof (RefCountingOp_lowering (mkRefCountingOp 0%nat x 3) [x] st
                Hrange) as (Hadd & _).
  pose proof (RefCountingOp_lowering (mkRefCountingOp 1%nat x 3) [x] st
                Hrange) as (_ & Hdrop & _).
  split; [exact Hadd | exact Hdrop].
Defined.

(** ** Declarations *)

Lemma addFuncDecl_declare (name : string) (type : Ty) (module : ModuleOp) :
  addFuncDecl name type module = declare (name, FuncOp name type Private) module.
Proof. reflexivity. Qed.

Lemma addLLVMFuncDecl_declare (name : string) (ret : Ty) (params : list Ty)
    (module : ModuleOp) :
  addLLVMFuncDecl name ret params module =
    declare (name, LLVMFuncOp name (LLVMFunctionType ret params false) Public)
      module.
Proof. reflexivity. Qed.

Lemma addRuntimeDeclarations_declareAll (module : ModuleOp) :
  addRuntimeDeclarations module = declareAll runtimeDeclarations module.
Proof.
  cbv beta zeta delta [addRuntimeDeclarations addCRuntimeDeclarations
                       addAsyncRuntimeApiDeclarations].
  rewrite !addFuncDecl_declare, !addLLVMFuncDecl_declare.
  cbv beta zeta iota delta [declareAll runtimeDeclarations fold_left].
  reflexivity.
Qed.

Lemma runtimeDeclarations_names :
  map fst runtimeDeclarations = declaredNames.
Proof. reflexivity. Qed.

Lemma runtimeDeclarations_named :
  Forall (fun d => symbolName (snd d) = Some (fst d)) runtimeDeclarations.
Proof. repeat constructor. Qed.

Section SymbolCount.

Variable name : string.

Lemma symbolCount_app (m1 m2 : ModuleOp) :
  symbolCount name (m1 ++ m2)
    = (symbolCount name m1 + symbolCount name m2)%nat.
Proof. unfold symbolCount. rewrite List.filter_app. apply length_app. Qed.

Lemma symbolCount_cons (o : TopLevelOp) (m : ModuleOp) :
  symbolCount name (o :: m)
    = ((if definesSymbol name o then 1 else 0) + symbolCount name m)%nat.
Proof.
  unfold symbolCount. cbn [List.filter].
  destruct (definesSymbol name o); reflexivity.
Qed.

Lemma lookupSymbol_None (m : ModuleOp) :
  lookupSymbol name m = None <-> symbolCount name m = 0%nat.
Proof.
  unfold lookupSymbol. induction m as [| o m IH].
  - split; reflexivity.
  - rewrite symbolCount_cons. cbn [find].
    destruct (definesSymbol name o).
    + split; [discriminate | lia].
    + rewrite IH. reflexivity.
Qed.

Lemma lookupSymbol_Some (m : ModuleOp) :
  is_Some (lookupSymbol name m) <-> (0 < symbolCount name m)%nat.
Proof.
  pose proof (lookupSymbol_None m) as Hnone.
  destruct (lookupSymbol name m) as [o |].
  - split; [intros _ | eauto].
    destruct (symbolCount name m); [| lia].
    assert (Some o = None) by (apply Hnone; reflexivity). discriminate.
  - split; [intros [o Ho]; discriminate |].
    intros Hpos. assert (symbolCount name m = 0%nat) by tauto. lia.
Qed.

End SymbolCount.

Lemma definesSymbol_true (name : string) (o : TopLevelOp) :
  definesSymbol name o = true <-> symbolName o = Some name.
Proof. unfold definesSymbol. apply bool_decide_eq_true. Qed.

(** Declaring [d] leaves the count of every other name alone, and brings the
    count of its own name to one when it was zero. *)
Lemma symbolCount_declare (n : string) (d : string * TopLevelOp)
    (module : ModuleOp) :
  symbolName (snd d) = Some (fst d) ->
  symbolCount n (declare d module) =
    if decide (n = fst d) then Nat.max 1 (symbolCount n module)
    else symbolCount n module.
Proof.
  intros Hnamed. unfold declare.
  destruct (lookupSymbol (fst d) module) as [o |] eqn:Hlookup.
  - destruct (decide (n = fst d)) as [-> | Hne]; [| reflexivity].
    assert (0 < symbolCount (fst d) module)%nat
      by (apply lookupSymbol_Some; eauto).
    lia.
  - apply lookupSymbol_None in Hlookup.
    rewrite symbolCount_app, symbolCount_cons. cbn [symbolCount List.filter length].
    destruct (decide (n = fst d)) as [-> | Hne].
    + rewrite (proj2 (definesSymbol_true (fst d) (snd d)) Hnamed). lia.
    + destruct (definesSymbol n (snd d)) eqn:Hdef; [| lia].
      apply definesSymbol_true in Hdef. congruence.
Qed.

Lemma symbolCount_declareAll (n : string) (ds : list (string * TopLevelOp))
    (module : ModuleOp) :
  Forall (fun d => symbolName (snd d) = Some (fst d)) ds ->
  symbolCount n (declareAll ds module) =
    if decide (n ∈ map fst ds) then Nat.max 1 (symbolCount n module)
    else symbolCount n module.
Proof.
  intros Hnamed. revert module.
  induction Hnamed as [| d ds Hd _ IH]; intros module.
  - cbn. destruct (decide (n ∈ [])) as [Hin | _]; [| reflexivity].
    inversion Hin.
  - cbn [declareAll fold_left map]. fold (declareAll ds (declare d module)).
    rewrite IH, (symbolCount_declare n d module Hd).
    destruct (decide (n = fst d)) as [Heq | Hne];
      destruct (decide (n ∈ map fst ds)) as [Hin | Hnin];
      destruct (decide (n ∈ fst d :: map fst ds)) as [Hin' | Hnin'];
      try lia;
      try (exfalso; apply Hnin'; subst; constructor; assumption);
      try (exfalso; apply Hnin'; rewrite Heq; constructor).
    exfalso. inversion Hin'; subst; contradiction.
Qed.

(** Declaring names that the module already defines changes nothing. *)
Lemma declareAll_present (ds : list (string * TopLevelOp))
    (module : ModuleOp) :
  Forall (fun d => is_Some (lookupSymbol (fst d) module)) ds ->
  declareAll ds module = module.
Proof.
  induction 1 as [| d ds [o Ho] _ IH]; [reflexivity |].
  assert (Hd : declare d module = module)
    by (unfold declare; rewrite Ho; reflexivity).
  cbn [declareAll fold_left]. rewrite Hd. exact IH.
Qed.

Lemma declareAll_defines (ds : list (string * TopLevelOp))
    (module : ModuleOp) :
  Forall (fun d => symbolName (snd d) = Some (fst d)) ds ->
  Forall (fun d => is_Some (lookupSymbol (fst d) (declareAll ds module))) ds.
Proof.
  intros Hnamed. apply Forall_forall. intros d Hd.
  apply lookupSymbol_Some.
  rewrite (symbolCount_declareAll (fst d) ds module Hnamed).
  destruct (decide (fst d ∈ map fst ds)) as [_ | Hnin]; [lia |].
  exfalso. apply Hnin. rewrite list_elem_of_In. apply in_map.
  rewrite <- list_elem_of_In. exact Hd.
Qed.

Lemma declareAll_idempotent (ds : list (string * TopLevelOp))
    (module : ModuleOp) :
  Forall (fun d => symbolName (snd d) = Some (fst d)) ds ->
  declareAll ds (declareAll ds module) = declareAll ds module.
Proof.
  intros Hnamed. apply declareAll_present, declareAll_defines, Hnamed.
Qed.

Lemma iter_idempotent {A : Type} (f : A -> A) :
  (forall x, f (f x) = f x) ->
  forall (k : nat) (x : A), Nat.iter (S k) f x = f x.
Proof.
  intros Hidem k x. induction k as [| k IH]; [reflexivity |].
  rewrite Nat.iter_succ, IH. apply Hidem.
Qed.

(** C9: the declaration step is idempotent.  Running it again on its own
    output changes nothing, however often; a module that already defines
    every declared name is left as it is; and when the module defines each
    name at most once to begin with, each declared name is defined exactly
    once after any number of runs. *)
Theorem addRuntimeDeclarations_idempotent (module : ModuleOp) :
  addRuntimeDeclarations (addRuntimeDeclarations module)
    = addRuntimeDeclarations module /\
  (forall k : nat,
     Nat.iter (S k) addRuntimeDeclarations module
       = addRuntimeDeclarations module) /\
  ((forall name, name ∈ declaredNames ->
      is_Some (lookupSymbol name module)) ->
     addRuntimeDeclarations module = module) /\
  (forall name, name ∈ declaredNames ->
     (symbolCount name module <= 1)%nat ->
     forall k : nat,
       symbolCount name (Nat.iter (S k) addRuntimeDeclarations module)
         = 1%nat).
Proof.
  assert (Hidem : forall m,
            addRuntimeDeclarations (addRuntimeDeclarations m)
              = addRuntimeDeclarations m).
  { intros m. rewrite (addRuntimeDeclarations_declareAll m).
    rewrite (addRuntimeDeclarations_declareAll
               (declareAll runtimeDeclarations m)).
    apply declareAll_idempotent, runtimeDeclarations_named. }
  assert (Hiter : forall k,
            Nat.iter (S k) addRuntimeDeclarations module
              = addRuntimeDeclarations module)
    by (intros k; apply iter_idempotent, Hidem).
  split; [apply Hidem |]. split; [exact Hiter |]. split.
  - intros Hpresent. rewrite addRuntimeDeclarations_declareAll.
    apply declareAll_present, Forall_forall. intros d Hd.
    apply Hpresent. rewrite <- runtimeDeclarations_names.
    rewrite list_elem_of_In. apply in_map.
    rewrite <- list_elem_of_In. exact Hd.
  - intros name Hname Hunique k. rewrite Hiter.
    rewrite addRuntimeDeclarations_declareAll.
    rewrite (symbolCount_declareAll name _ module runtimeDeclarations_named).
    rewrite runtimeDeclarations_names.
    destruct (decide (name ∈ declaredNames)); [lia | contradiction].
Qed.

Lemma addRuntimeDeclarations_idempotent_witness :
  let module :=
    [FuncOp "main" (FunctionType [] []) Public;
     LLVMFuncOp kMalloc
       (LLVMFunctionType AsyncAPI.opaquePointerType [IntegerType 64] false)
       Public] in
  addRuntimeDeclarations (addRuntimeDeclarations module)
    = addRuntimeDeclarations module /\
  symbolCount kMalloc (Nat.iter 2 addRuntimeDeclarations module) = 1%nat /\
  symbolCount kAddRef (Nat.iter 2 addRuntimeDeclarations module) = 1%nat.
Proof.
  intros module.
  pose proof (addRuntimeDeclarations_idempotent module)
    as (Htwice & _ & _ & Hcount).
  assert (HinMalloc : kMalloc ∈ declaredNames) by repeat constructor.
  assert (HinAddRef : kAddRef ∈ declaredNames) by repeat constructor.
  assert (HleMalloc : (symbolCount kMalloc module <= 1)%nat)
    by (vm_compute; lia).
  assert (HleAddRef : (symbolCount kAddRef module <= 1)%nat)
    by (vm_compute; lia).
  split; [exact Htwice |].
  split.
  - exact (Hcount kMalloc HinMalloc HleMalloc 1%nat).
  - exact (Hcount kAddRef HinAddRef HleAddRef 1%nat).
Defined.

(** ** Structural conversions *)

(** After the clone is created the arena is the old arena followed by the
    clone.  The lemmas below read and write the old operation and the clone
    in a state of that shape. *)
Section ArenaWithClone.

Variables (a : list Operation) (c : Operation).
Variables (i : list OpId) (r : list (OpId * list Value)).
Variables (e : list OpId) (d : list (OpId * string)).

Lemma getOperation_clone :
  getOperation (mkState (a ++ [c]) i r e d) (length a) = c.
Proof.
  unfold getOperation. cbn [arena].
  rewrite lookup_app_r by lia. rewrite Nat.sub_diag. reflexivity.
Qed.

Lemma setOperation_clone (c' : Operation) :
  setOperation (length a) c' (mkState (a ++ [c]) i r e d)
    = mkState (a ++ [c']) i r e d.
Proof.
  unfold setOperation. cbn [arena inserted replaced erased diagnostics].
  f_equal. rewrite insert_app_r_alt by lia. rewrite Nat.sub_diag.
  reflexivity.
Qed.

Lemma getOperation_old (op : OpId) (o : Operation) :
  a !! op = Some o -> getOperation (mkState (a ++ [c]) i r e d) op = o.
Proof.
  intros Ho. unfold getOperation. cbn [arena].
  rewrite lookup_app_l by (eapply lookup_lt_Some; exact Ho).
  rewrite Ho. reflexivity.
Qed.

Lemma setOperation_old (op : OpId) (o o' : Operation) :
  a !! op = Some o ->
  setOperation op o' (mkState (a ++ [c]) i r e d)
    = mkState (<[op := o']> a ++ [c]) i r e d.
Proof.
  intros Ho. unfold setOperation.
  cbn [arena inserted replaced erased diagnostics]. f_equal.
  apply insert_app_l. eapply lookup_lt_Some. exact Ho.
Qed.

End ArenaWithClone.

Lemma cloneWithoutRegions_run (op : OpId) (o : Operation)
    (st : RewriterState) :
  arena st !! op = Some o ->
  cloneWithoutRegions op st =
    (length (arena st),
     mkState (arena st ++ [withRegions o (map (fun _ => []) (opRegions o))])
       (inserted st ++ [length (arena st)]) (replaced st) (erased st)
       (diagnostics st)).
Proof.
  intros Ho. unfold cloneWithoutRegions, getOperation. rewrite Ho.
  reflexivity.
Qed.

(** Moving region [k] of the old operation [op] to the end of region [k] of
    the clone. *)
Lemma inlineRegionBefore_run (a : list Operation) (c : Operation)
    (i : list OpId) (r : list (OpId * list Value)) (e : list OpId)
    (d : list (OpId * string)) (op : OpId) (o : Operation) (k n : nat) :
  n = length a ->
  a !! op = Some o ->
  inlineRegionBefore (op, k) (n, k) (mkState (a ++ [c]) i r e d) =
    (tt,
     mkState
       (<[op := withRegions o (<[k := []]> (opRegions o))]> a ++
        [withRegions c
           (<[k := default [] (opRegions c !! k) ++
                   default [] (opRegions o !! k)]> (opRegions c))])
       i r e d).
Proof.
  intros -> Ho. unfold inlineRegionBefore, getRegion, setRegion.
  cbn [fst snd].
  rewrite (getOperation_old a c i r e d op o Ho).
  rewrite (setOperation_old a c i r e d op o _ Ho).
  rewrite <- (length_insert a op (withRegions o (<[k:=[]]> (opRegions o)))).
  rewrite getOperation_clone, setOperation_clone.
  reflexivity.
Qed.

Lemma convertEntryBlock_blockOps (converter : TypeConverter)
    (blocks blocks' : Region) :
  convertEntryBlock converter blocks = Some blocks' ->
  map blockOps blocks' = map blockOps blocks.
Proof.
  destruct blocks as [| entry rest]; cbn [convertEntryBlock].
  - intros [= <-]. reflexivity.
  - destruct (convertSignatureArgs converter (blockArgTypes entry));
      [| discriminate].
    intros [= <-]. reflexivity.
Qed.

Lemma withRegions_regions (o : Operation) :
  withRegions o (opRegions o) = o.
Proof. destruct o. reflexivity. Qed.

Lemma convertRegionTypes_run (converter : TypeConverter)
    (a : list Operation) (c : Operation) (i : list OpId)
    (r : list (OpId * list Value)) (e : list OpId)
    (d : list (OpId * string)) (k n : nat) (blocks : Region) :
  n = length a ->
  opRegions c !! k = Some blocks ->
  convertRegionTypes (n, k) converter (mkState (a ++ [c]) i r e d) =
    match convertEntryBlock converter blocks with
    | Some blocks' =>
        (success,
         mkState (a ++ [withRegions c (<[k := blocks']> (opRegions c))])
           i r e d)
    | None => (failure, mkState (a ++ [c]) i r e d)
    end.
Proof.
  intros -> Hk. unfold convertRegionTypes, getRegion, setRegion.
  cbn [fst snd].
  rewrite getOperation_clone, Hk. change (default [] (Some blocks)) with blocks.
  destruct blocks as [| entry rest]; cbn [convertEntryBlock].
  - rewrite list_insert_id by exact Hk. rewrite withRegions_regions.
    reflexivity.
  - destruct (convertSignatureArgs converter (blockArgTypes entry));
      [| reflexivity].
    rewrite setOperation_clone. reflexivity.
Qed.

Lemma setOperands_run (a : list Operation) (c : Operation) (i : list OpId)
    (r : list (OpId * list Value)) (e : list OpId)
    (d : list (OpId * string)) (operands : list Value) (n : nat) :
  n = length a ->
  setOperands n operands (mkState (a ++ [c]) i r e d) =
    (tt, mkState (a ++ [withOperands c operands]) i r e d).
Proof.
  intros ->. unfold setOperands. rewrite getOperation_clone, setOperation_clone.
  reflexivity.
Qed.

Lemma setResultTypes_run (a : list Operation) (c : Operation)
    (i : list OpId) (r : list (OpId * list Value)) (e : list OpId)
    (d : list (OpId * string)) (types : list Ty) (n : nat) :
  n = length a ->
  setResultTypes n types (mkState (a ++ [c]) i r e d) =
    (tt, mkState (a ++ [withResultTypes c types]) i r e d).
Proof.
  intros ->. unfold setResultTypes. rewrite getOperation_clone, setOperation_clone.
  reflexivity.
Qed.

Lemma getResultTypes_run (a : list Operation) (c : Operation)
    (i : list OpId) (r : list (OpId * list Value)) (e : list OpId)
    (d : list (OpId * string)) (n : nat) :
  n = length a ->
  getResultTypes n (mkState (a ++ [c]) i r e d) =
    (opResultTypes c, mkState (a ++ [c]) i r e d).
Proof.
  intros ->. unfold getResultTypes. rewrite getOperation_clone. reflexivity.
Qed.

Lemma getOpResults_run (a : list Operation) (c : Operation)
    (i : list OpId) (r : list (OpId * list Value)) (e : list OpId)
    (d : list (OpId * string)) (n : nat) :
  n = length a ->
  getOpResults n (mkState (a ++ [c]) i r e d) =
    (getResults n c, mkState (a ++ [c]) i r e d).
Proof.
  intros ->. unfold getOpResults. rewrite getOperation_clone. reflexivity.
Qed.

Lemma setResultTypesZip_run (a : list Operation) (c : Operation)
    (i : list OpId) (r : list (OpId * list Value)) (e : list OpId)
    (d : list (OpId * string)) (types : list Ty) (n : nat) :
  n = length a ->
  setResultTypesZip n types (mkState (a ++ [c]) i r e d) =
    (tt,
     mkState (a ++ [withResultTypes c (zipSetType (opResultTypes c) types)])
       i r e d).
Proof.
  intros Hn. unfold setResultTypesZip, bind.
  rewrite (getResultTypes_run a c i r e d n Hn).
  apply setResultTypes_run, Hn.
Qed.

Ltac structural_step :=
  first
    [ rewrite inlineRegionBefore_run
        by (rewrite ?length_insert; first [reflexivity | eassumption])
    | rewrite setOperands_run by (rewrite ?length_insert; reflexivity)
    | rewrite setResultTypesZip_run by (rewrite ?length_insert; reflexivity)
    | rewrite setResultTypes_run by (rewrite ?length_insert; reflexivity)
    | rewrite getResultTypes_run by (rewrite ?length_insert; reflexivity)
    | rewrite getOpResults_run by (rewrite ?length_insert; reflexivity) ].

(** What the scf.if pattern does to a live scf.if (two regions). *)
Lemma ConvertIfOpTypes_run (typeConverter : TypeConverter) (op : OpId)
    (operands : list Value) (st : RewriterState) (o : Operation)
    (thenRegion elseRegion : Region) :
  arena st !! op = Some o ->
  opRegions o = [thenRegion; elseRegion] ->
  ConvertIfOpTypes typeConverter op operands st =
    match convertResultTypes typeConverter (opResultTypes o) with
    | None =>
        (failure,
         mkState (arena st) (inserted st) (replaced st) (erased st)
           (diagnostics st ++ [(op, "not a 1:1 type conversion")]))
    | Some newResultTypes =>
        let n := length (arena st) in
        let newOp :=
          mkOperation (opKind o) operands
            (zipSetType (opResultTypes o) newResultTypes) (opAttrs o)
            (opSuccessors o) [thenRegion; elseRegion] in
        (success,
         mkState (<[op := withRegions o [[]; []]]> (arena st) ++ [newOp])
           (inserted st ++ [n])
           (replaced st ++ [(op, getResults n newOp)])
           (erased st) (diagnostics st))
    end.
Proof.
  intros Ho Hregions.
  unfold ConvertIfOpTypes, bind.
  unfold getResultTypes at 1, getOperation at 1. rewrite Ho.
  cbn [default from_option id].
  destruct (convertResultTypes typeConverter (opResultTypes o))
    as [newResultTypes |]; [| reflexivity].
  rewrite (cloneWithoutRegions_run op o st Ho).
  destruct o as [kind ops types attrs succs regions].
  cbn [opRegions] in Hregions. subst regions.
  cbn [withRegions opKind opOperands opResultTypes opAttrs opSuccessors
       opRegions map].
  erewrite inlineRegionBefore_run; [| reflexivity | exact Ho].
  erewrite inlineRegionBefore_run;
    [| rewrite length_insert; reflexivity
     | apply list_lookup_insert_eq; eapply lookup_lt_Some; exact Ho].
  rewrite list_insert_insert_eq.
  repeat structural_step.
  reflexivity.
Qed.

(** What the scf.for pattern does to a live scf.for (one region). *)
Lemma ConvertForOpTypes_run (typeConverter : TypeConverter) (op : OpId)
    (operands : list Value) (st : RewriterState) (o : Operation)
    (body : Region) :
  arena st !! op = Some o ->
  opRegions o = [body] ->
  ConvertForOpTypes typeConverter op operands st =
    match convertResultTypes typeConverter (opResultTypes o) with
    | None =>
        (failure,
         mkState (arena st) (inserted st) (replaced st) (erased st)
           (diagnostics st ++ [(op, "not a 1:1 type conversion")]))
    | Some newResultTypes =>
        let n := length (arena st) in
        let emptied := <[op := withRegions o [[]]]> (arena st) in
        match convertEntryBlock typeConverter body with
        | None =>
            (failure,
             mkState (emptied ++ [o]) (inserted st ++ [n]) (replaced st)
               (erased st)
               (diagnostics st ++ [(op, "could not convert body types")]))
        | Some body' =>
            let newOp :=
              mkOperation (opKind o) operands
                (zipSetType (opResultTypes o) newResultTypes) (opAttrs o)
                (opSuccessors o) [body'] in
            (success,
             mkState (emptied ++ [newOp]) (inserted st ++ [n])
               (replaced st ++ [(op, getResults n newOp)])
               (erased st) (diagnostics st))
        end
    end.
Proof.
  intros Ho Hregions.
  unfold ConvertForOpTypes, bind.
  unfold getResultTypes at 1, getOperation at 1. rewrite Ho.
  cbn [default from_option id].
  destruct (convertResultTypes typeConverter (opResultTypes o))
    as [newResultTypes |]; [| reflexivity].
  rewrite (cloneWithoutRegions_run op o st Ho).
  destruct o as [kind ops types attrs succs regions].
  cbn [opRegions] in Hregions. subst regions.
  cbn [withRegions opKind opOperands opResultTypes opAttrs opSuccessors
       opRegions map].
  erewrite inlineRegionBefore_run; [| reflexivity | exact Ho].
  erewrite convertRegionTypes_run;
    [| rewrite length_insert; reflexivity | reflexivity].
  cbn [app default from_option id lookup list_lookup opRegions withRegions].
  destruct (convertEntryBlock typeConverter body) as [body' |];
    cbn [failed]; [| reflexivity].
  repeat structural_step.
  reflexivity.
Qed.

(** What the async.execute pattern does to a live async.execute (one
    region). *)
Lemma ConvertExecuteOpTypes_run (typeConverter : TypeConverter) (op : OpId)
    (operands : list Value) (st : RewriterState) (o : Operation)
    (body : Region) :
  arena st !! op = Some o ->
  opRegions o = [body] ->
  ConvertExecuteOpTypes typeConverter op operands st =
    let n := length (arena st) in
    let emptied := <[op := withRegions o [[]]]> (arena st) in
    match convertEntryBlock typeConverter body with
    | None =>
        (failure,
         mkState (emptied ++ [withOperands o operands]) (inserted st ++ [n])
           (replaced st) (erased st) (diagnostics st))
    | Some body' =>
        let newOp :=
          mkOperation (opKind o) operands
            (map (convertType typeConverter) (opResultTypes o)) (opAttrs o)
            (opSuccessors o) [body'] in
        (success,
         mkState (emptied ++ [newOp]) (inserted st ++ [n])
           (replaced st ++ [(op, getResults n newOp)])
           (erased st) (diagnostics st))
    end.
Proof.
  intros Ho Hregions.
  unfold ConvertExecuteOpTypes, bind.
  rewrite (cloneWithoutRegions_run op o st Ho).
  destruct o as [kind ops types attrs succs regions].
  cbn [opRegions] in Hregions. subst regions.
  cbn [withRegions opKind opOperands opResultTypes opAttrs opSuccessors
       opRegions map].
  erewrite inlineRegionBefore_run; [| reflexivity | exact Ho].
  structural_step.
  erewrite convertRegionTypes_run;
    [| rewrite length_insert; reflexivity | reflexivity].
  cbn [app default from_option id lookup list_lookup opRegions withRegions
       withOperands].
  destruct (convertEntryBlock typeConverter body) as [body' |];
    cbn [failed]; [| reflexivity].
  repeat structural_step.
  reflexivity.
Qed.

Lemma regionOps_blockOps (r r' : Region) :
  map blockOps r' = map blockOps r -> regionOps r' = regionOps r.
Proof. unfold regionOps. intros ->. reflexivity. Qed.

(** C2: the structural patterns for scf.for, scf.if and async.execute move
    the regions of the old operation into the replacement.  After a
    successful rewrite every region of the replacement holds the operations
    the same region of the old operation held, in the same blocks and the
    same order; the old operation keeps none of them, and the rewrite
    creates no operation besides the replacement. *)
Theorem structural_rewrite_moves_regions (p : StructuralPattern)
    (typeConverter : TypeConverter) (op : OpId) (operands : list Value)
    (st st' : RewriterState) (o : Operation) :
  arena st !! op = Some o ->
  matches p o ->
  matchAndRewrite p typeConverter op operands st = (success, st') ->
  regionsMoved op o st st'.
Proof.
  intros Ho [_ Hregions] Hrun. unfold regionsMoved.
  destruct p; cbn [numRegions matchAndRewrite] in *.
  - destruct (opRegions o) as [| body [| ? ?]] eqn:Hshape;
      try discriminate Hregions.
    rewrite (ConvertForOpTypes_run _ _ _ _ _ _ Ho Hshape) in Hrun.
    destruct (convertResultTypes typeConverter (opResultTypes o));
      [| discriminate Hrun].
    cbv zeta in Hrun.
    destruct (convertEntryBlock typeConverter body) as [body' |] eqn:Hbody;
      [| discriminate Hrun].
    injection Hrun as <-.
    apply convertEntryBlock_blockOps in Hbody.
    eexists _, _. cbn [arena inserted replaced opKind opRegions].
    repeat split; try reflexivity.
    + cbn [opRegions map]. rewrite Hbody. reflexivity.
    + cbn [opRegions map]. rewrite (regionOps_blockOps _ _ Hbody).
      reflexivity.
  - destruct (opRegions o) as [| thenRegion [| elseRegion [| ? ?]]]
      eqn:Hshape; try discriminate Hregions.
    rewrite (ConvertIfOpTypes_run _ _ _ _ _ _ _ Ho Hshape) in Hrun.
    destruct (convertResultTypes typeConverter (opResultTypes o));
      [| discriminate Hrun].
    cbv zeta in Hrun. injection Hrun as <-.
    eexists _, _. cbn [arena inserted replaced opKind opRegions].
    repeat split; reflexivity.
  - destruct (opRegions o) as [| body [| ? ?]] eqn:Hshape;
      try discriminate Hregions.
    rewrite (ConvertExecuteOpTypes_run _ _ _ _ _ _ Ho Hshape) in Hrun.
    cbv zeta in Hrun.
    destruct (convertEntryBlock typeConverter body) as [body' |] eqn:Hbody;
      [| discriminate Hrun].
    injection Hrun as <-.
    apply convertEntryBlock_blockOps in Hbody.
    eexists _, _. cbn [arena inserted replaced opKind opRegions].
    repeat split; try reflexivity.
    + cbn [opRegions map]. rewrite Hbody. reflexivity.
    + cbn [opRegions map]. rewrite (regionOps_blockOps _ _ Hbody).
      reflexivity.
Qed.

Lemma structural_rewrite_moves_regions_witness :
  let loop :=
    mkOperation scf_ForOp [] [TokenType; IndexType] [] []
      [[mkBlock [IndexType; TokenType] [1; 2]%nat; mkBlock [] [3%nat]]] in
  let st :=
    mkState [loop; emptyOperation; emptyOperation; emptyOperation]
      [] [] [] [] in
  let st' :=
    mkState
      [withRegions loop [[]]; emptyOperation; emptyOperation; emptyOperation;
       mkOperation scf_ForOp [] [AsyncAPI.opaquePointerType; IndexType] [] []
         [[mkBlock [IndexType; AsyncAPI.opaquePointerType] [1; 2]%nat;
           mkBlock [] [3%nat]]]]
      [4%nat]
      [(0%nat,
        [mkValue (OpResult 4%nat 0%nat) AsyncAPI.opaquePointerType;
         mkValue (OpResult 4%nat 1%nat) IndexType])]
      [] [] in
  ConvertForOpTypes AsyncRuntimeTypeConverter 0%nat [] st = (success, st') /\
  regionsMoved 0%nat loop st st'.
Proof.
  intros loop st st'.
  assert (Hrun : matchAndRewrite ForOpTypes AsyncRuntimeTypeConverter 0%nat
                   [] st = (success, st')) by reflexivity.
  split; [exact Hrun |].
  apply (structural_rewrite_moves_regions ForOpTypes
           AsyncRuntimeTypeConverter 0%nat [] st st' loop).
  - reflexivity.
  - split; reflexivity.
  - exact Hrun.
Defined.

Lemma convertResultTypes_None (converter : TypeConverter) (types : list Ty) :
  convertResultTypes converter types = None <->
  Exists (fun type => convertType converter type = NullTy) types.
Proof.
  induction types as [| type rest IH]; cbn [convertResultTypes].
  - split; [discriminate | intros H; inversion H].
  - destruct (isNull (convertType converter type)) eqn:Hnull.
    + split; [intros _ | reflexivity].
      apply Exists_cons_hd, isNull_true, Hnull.
    + apply isNull_false in Hnull.
      destruct (convertResultTypes converter rest) as [newTypes |].
      * split; [discriminate |].
        intros H. inversion H; subst; [contradiction |].
        assert (Some newTypes = None) by (apply IH; assumption).
        discriminate.
      * split; [intros _ | reflexivity].
        apply Exists_cons_tl, IH. reflexivity.
Qed.

Lemma convertResultTypes_Some (converter : TypeConverter) (types : list Ty)
    (newResultTypes : list Ty) :
  convertResultTypes converter types = Some newResultTypes ->
  Forall (fun type => convertType converter type <> NullTy) types /\
  newResultTypes = map (convertType converter) types.
Proof.
  revert newResultTypes.
  induction types as [| type rest IH]; cbn [convertResultTypes];
    intros newResultTypes.
  - intros [= <-]. split; [constructor | reflexivity].
  - destruct (isNull (convertType converter type)) eqn:Hnull;
      [discriminate |].
    apply isNull_false in Hnull.
    destruct (convertResultTypes converter rest) as [newRest |];
      [| discriminate].
    intros [= <-]. destruct (IH newRest eq_refl) as [Hall ->].
    split; [constructor; assumption | reflexivity].
Qed.

Lemma structural_not_1_1_run (p : StructuralPattern)
    (typeConverter : TypeConverter) (op : OpId) (operands : list Value)
    (st : RewriterState) :
  p = ForOpTypes \/ p = IfOpTypes ->
  convertResultTypes typeConverter (opResultTypes (getOperation st op))
    = None ->
  matchAndRewrite p typeConverter op operands st =
    (failure,
     mkState (arena st) (inserted st) (replaced st) (erased st)
       (diagnostics st ++ [(op, "not a 1:1 type conversion")])).
Proof.
  intros [-> | ->] Hnone; cbn [matchAndRewrite];
    [unfold ConvertForOpTypes | unfold ConvertIfOpTypes];
    unfold bind, getResultTypes at 1; rewrite Hnone; reflexivity.
Qed.

(** C4: when some result type of an scf.for or scf.if has no converted type
    (the converter rejects it, or does not map it to exactly one type), the
    structural rewrite fails with the diagnostic "not a 1:1 type conversion"
    and changes nothing else: the arena, and with it the operation and its
    regions, is as before, and nothing is created or replaced.  The rewrite
    succeeds, or touches the arena at all, only when every result type
    converts. *)
Theorem structural_rewrite_not_1_1 (p : StructuralPattern)
    (typeConverter : TypeConverter) (op : OpId) (operands : list Value)
    (st : RewriterState) :
  p = ForOpTypes \/ p = IfOpTypes ->
  let types := opResultTypes (getOperation st op) in
  let run := matchAndRewrite p typeConverter op operands st in
  (Exists (fun type => convertType typeConverter type = NullTy) types ->
     run =
       (failure,
        mkState (arena st) (inserted st) (replaced st) (erased st)
          (diagnostics st ++ [(op, "not a 1:1 type conversion")]))) /\
  (fst run = success \/ arena (snd run) <> arena st ->
     Forall (fun type => convertType typeConverter type <> NullTy) types).
Proof.
  intros Hp types run. split.
  - intros Hsome. apply convertResultTypes_None in Hsome.
    exact (structural_not_1_1_run p typeConverter op operands st Hp Hsome).
  - intros Hproceeds.
    destruct (convertResultTypes typeConverter types) as [newTypes |]
      eqn:Hconv.
    + apply (convertResultTypes_Some _ _ _ Hconv).
    + exfalso. subst run.
      rewrite (structural_not_1_1_run p typeConverter op operands st Hp Hconv)
        in Hproceeds.
      cbn [fst snd arena] in Hproceeds.
      destruct Hproceeds as [Hsuccess | Harena];
        [discriminate Hsuccess | apply Harena; reflexivity].
Qed.

Lemma structural_rewrite_not_1_1_witness :
  let onlyAsync :=
    addConversion (wrapOptionalCallback convertAsyncTypes)
      emptyTypeConverter in
  let conditional :=
    mkOperation scf_IfOp [] [TokenType; IndexType] [] []
      [[mkBlock [] [1%nat]]; [mkBlock [] [2%nat]]] in
  let st :=
    mkState [conditional; emptyOperation; emptyOperation] [] [] [] [] in
  ConvertIfOpTypes onlyAsync 0%nat [] st =
    (failure,
     mkState [conditional; emptyOperation; emptyOperation] [] [] []
       [(0%nat, "not a 1:1 type conversion")]).
Proof.
  intros onlyAsync conditional st.
  apply (structural_rewrite_not_1_1 IfOpTypes onlyAsync 0%nat [] st).
  - right. reflexivity.
  - apply Exists_cons_tl, Exists_cons_hd. reflexivity.
Defined.

(** ** Declarations: what is added and what a lookup finds *)

Lemma lookupSymbol_app (name : string) (m1 m2 : ModuleOp) :
  lookupSymbol name (m1 ++ m2) =
    match lookupSymbol name m1 with
    | Some o => Some o
    | None => lookupSymbol name m2
    end.
Proof.
  unfold lookupSymbol. induction m1 as [| o m1 IH]; [reflexivity |].
  cbn [app find]. destruct (definesSymbol name o); [reflexivity | exact IH].
Qed.

Lemma lookupSymbol_declare (name : string) (d : string * TopLevelOp)
    (module : ModuleOp) :
  symbolName (snd d) = Some (fst d) ->
  lookupSymbol name (declare d module) =
    match lookupSymbol name module with
    | Some o => Some o
    | None => if decide (fst d = name) then Some (snd d) else None
    end.
Proof.
  intros Hnamed. unfold declare.
  destruct (lookupSymbol (fst d) module) as [o |] eqn:Hd.
  - destruct (lookupSymbol name module) as [o' |] eqn:Hname; [reflexivity |].
    destruct (decide (fst d = name)) as [<- | _]; [congruence | reflexivity].
  - rewrite lookupSymbol_app.
    destruct (lookupSymbol name module) as [o' |]; [reflexivity |].
    unfold lookupSymbol. cbn [find]. unfold definesSymbol.
    rewrite Hnamed.
    destruct (decide (fst d = name)) as [-> | Hne].
    + rewrite bool_decide_eq_true_2 by reflexivity. reflexivity.
    + rewrite bool_decide_eq_false_2 by congruence. reflexivity.
Qed.

Lemma lookupSymbol_declareAll (name : string)
    (ds : list (string * TopLevelOp)) (module : ModuleOp) :
  Forall (fun d => symbolName (snd d) = Some (fst d)) ds ->
  lookupSymbol name (declareAll ds module) =
    match lookupSymbol name module with
    | Some o => Some o
    | None => declarationOf name ds
    end.
Proof.
  intros Hnamed. revert module.
  induction Hnamed as [| d ds Hd _ IH]; intros module.
  - cbn [declareAll fold_left].
    destruct (lookupSymbol name module); reflexivity.
  - cbn [declareAll fold_left]. fold (declareAll ds (declare d module)).
    rewrite IH, (lookupSymbol_declare name d module Hd).
    unfold declarationOf. cbn [find].
    destruct (lookupSymbol name module) as [o |]; [reflexivity |].
    destruct (decide (fst d = name)) as [Heq | Hne].
    + rewrite bool_decide_eq_true_2 by exact Heq. reflexivity.
    + rewrite bool_decide_eq_false_2 by exact Hne. reflexivity.
Qed.

Lemma isMissing_declare (name : string) (d : string * TopLevelOp)
    (module : ModuleOp) :
  symbolName (snd d) = Some (fst d) ->
  fst d <> name ->
  isMissing (declare d module) name = isMissing module name.
Proof.
  intros Hnamed Hne. unfold isMissing.
  rewrite (lookupSymbol_declare name d module Hnamed).
  destruct (lookupSymbol name module); [reflexivity |].
  destruct (decide (fst d = name)); [contradiction | reflexivity].
Qed.

Lemma declareAll_missing (ds : list (string * TopLevelOp))
    (module : ModuleOp) :
  Forall (fun d => symbolName (snd d) = Some (fst d)) ds ->
  NoDup (map fst ds) ->
  declareAll ds module =
    module ++
    map snd (List.filter (fun d => isMissing module (fst d)) ds).
Proof.
  intros Hnamed. revert module.
  induction Hnamed as [| d ds Hd Hds IH]; intros module Hnodup.
  - cbn. rewrite app_nil_r. reflexivity.
  - cbn [map] in Hnodup. apply NoDup_cons in Hnodup as [Hfresh Hnodup].
    cbn [declareAll fold_left]. fold (declareAll ds (declare d module)).
    rewrite (IH _ Hnodup).
    assert (Hsame :
      List.filter (fun d' => isMissing (declare d module) (fst d')) ds =
      List.filter (fun d' => isMissing module (fst d')) ds).
    { apply List.filter_ext_in. intros d' Hd'.
      apply isMissing_declare; [exact Hd |].
      intros Heq. apply Hfresh. rewrite Heq.
      rewrite list_elem_of_In. apply in_map. exact Hd'. }
    rewrite Hsame. cbn [List.filter]. unfold declare, isMissing at 2.
    destruct (lookupSymbol (fst d) module); [reflexivity |].
    cbn [map]. rewrite <- app_assoc. reflexivity.
Qed.

Lemma declaredNames_NoDup : NoDup declaredNames.
Proof.
  apply (bool_decide_unpack (NoDup declaredNames)). vm_compute. reflexivity.
Qed.

Lemma declarationOf_In (name : string) (d : TopLevelOp)
    (ds : list (string * TopLevelOp)) :
  NoDup (map fst ds) ->
  In (name, d) ds ->
  declarationOf name ds = Some d.
Proof.
  unfold declarationOf.
  induction ds as [| e ds IH]; intros Hnodup Hin; [destruct Hin |].
  cbn [map] in Hnodup. apply NoDup_cons in Hnodup as [Hfresh Hnodup].
  cbn [find]. destruct Hin as [-> | Hin].
  - cbn [fst]. rewrite bool_decide_eq_true_2 by reflexivity. reflexivity.
  - rewrite bool_decide_eq_false_2; [apply IH; assumption |].
    intros Hname. apply Hfresh. rewrite Hname.
    rewrite list_elem_of_In.
    change name with (fst (name, d)). apply in_map. exact Hin.
Qed.

(** X3: the declaration step adds, after the operations the module already
    has and without touching them, one declaration for each declared name
    the module does not define yet, in the order of the source, and nothing
    else. *)
Theorem addRuntimeDeclarations_adds_missing (module : ModuleOp) :
  addRuntimeDeclarations module =
    module ++
    map snd
      (List.filter (fun d => isMissing module (fst d)) runtimeDeclarations).
Proof.
  rewrite addRuntimeDeclarations_declareAll.
  apply declareAll_missing; [exact runtimeDeclarations_named |].
  rewrite runtimeDeclarations_names. exact declaredNames_NoDup.
Qed.

(** X4: what a symbol lookup finds after the declaration step.  A symbol
    the module already defines is still what the lookup finds, whatever its
    kind and type: it is never overwritten.  A declared name the module did
    not define resolves to the declaration of the table.  Every other name
    resolves as before. *)
Theorem addRuntimeDeclarations_lookup (module : ModuleOp) (name : string) :
  (forall o, lookupSymbol name module = Some o ->
     lookupSymbol name (addRuntimeDeclarations module) = Some o) /\
  (forall d, lookupSymbol name module = None ->
     In (name, d) runtimeDeclarations ->
     lookupSymbol name (addRuntimeDeclarations module) = Some d) /\
  (name ∉ declaredNames ->
     lookupSymbol name (addRuntimeDeclarations module)
       = lookupSymbol name module).
Proof.
  rewrite addRuntimeDeclarations_declareAll.
  rewrite (lookupSymbol_declareAll name _ module runtimeDeclarations_named).
  split; [| split].
  - intros o ->. reflexivity.
  - intros d -> Hd. apply declarationOf_In; [| exact Hd].
    rewrite runtimeDeclarations_names. exact declaredNames_NoDup.
  - intros Hother.
    destruct (lookupSymbol name module) as [o |]; [reflexivity |].
    unfold declarationOf.
    destruct (find (fun e => bool_decide (fst e = name)) runtimeDeclarations)
      as [e |] eqn:Hfind; [| reflexivity].
    exfalso. apply find_some in Hfind as [He Hname].
    apply bool_decide_eq_true in Hname. apply Hother.
    rewrite <- runtimeDeclarations_names, <- Hname.
    rewrite list_elem_of_In. apply in_map. exact He.
Qed.

Lemma addRuntimeDeclarations_lookup_witness :
  let userMalloc := FuncOp kMalloc (FunctionType [] []) Public in
  let module := [userMalloc] in
  lookupSymbol kMalloc (addRuntimeDeclarations module) = Some userMalloc /\
  lookupSymbol kFree (addRuntimeDeclarations module) =
    Some (LLVMFuncOp kFree
            (LLVMFunctionType LLVMVoidType [AsyncAPI.opaquePointerType] false)
            Public) /\
  lookupSymbol "main" (addRuntimeDeclarations module) = None.
Proof.
  intros userMalloc module.
  pose proof (addRuntimeDeclarations_lookup module kMalloc) as (Hkept & _).
  pose proof (addRuntimeDeclarations_lookup module kFree) as (_ & Hadded & _).
  pose proof (addRuntimeDeclarations_lookup module "main") as (_ & _ & Hother).
  split; [apply Hkept; reflexivity |].
  split.
  - apply Hadded; [reflexivity |].
    unfold runtimeDeclarations. cbn [In].
    do 17 right. left. reflexivity.
  - rewrite Hother; [reflexivity |].
    apply (bool_decide_unpack ("main" ∉ declaredNames)).
    vm_compute. reflexivity.
Defined.

(** X6: await on a Token, a Value or a Group lowers to one call to the
    blocking wait function of that kind, with the remapped operands and no
    result, and the await is erased; on an operand of any other type the
    lowering creates nothing and fails with a diagnostic. *)
Theorem RuntimeAwaitOp_lowering (op : RuntimeAwaitOp)
    (operands : list Value) (st : RewriterState) :
  let n := length (arena st) in
  let operandType := getType (await_operand op) in
  let lowered apiFuncName :=
    (success,
     mkState (arena st ++ [build_CallOp apiFuncName [] operands])
       (inserted st ++ [n]) (replaced st) (erased st ++ [await_op op])
       (diagnostics st)) in
  (operandType = TokenType ->
     RuntimeAwaitOpLowering op operands st = lowered kAwaitToken) /\
  (forall T, operandType = ValueType T ->
     RuntimeAwaitOpLowering op operands st = lowered kAwaitValue) /\
  (operandType = GroupType ->
     RuntimeAwaitOpLowering op operands st = lowered kAwaitGroup) /\
  (isa_TokenType operandType = false ->
   isa_ValueType operandType = false ->
   isa_GroupType operandType = false ->
     RuntimeAwaitOpLowering op operands st =
       (failure,
        mkState (arena st) (inserted st) (replaced st) (erased st)
          (diagnostics st ++ [(await_op op, "unsupported async type")]))).
Proof.
  intros n operandType lowered. unfold RuntimeAwaitOpLowering.
  fold operandType. repeat split.
  - intros ->. reflexivity.
  - intros T ->. reflexivity.
  - intros ->. reflexivity.
  - intros -> -> ->. reflexivity.
Qed.

Lemma RuntimeAwaitOp_lowering_witness :
  let st := mkState [emptyOperation] [] [] [] [] in
  let group := mkValue (BlockArgument 0%nat 0%nat) GroupType in
  let handle := mkValue (BlockArgument 0%nat 0%nat)
                  AsyncAPI.opaquePointerType in
  let index := mkValue (BlockArgument 0%nat 1%nat) IndexType in
  RuntimeAwaitOpLowering (mkRuntimeAwaitOp 0%nat group) [handle] st =
    (success,
     mkState [emptyOperation; build_CallOp kAwaitGroup [] [handle]]
       [1%nat] [] [0%nat] []) /\
  RuntimeAwaitOpLowering (mkRuntimeAwaitOp 0%nat index) [index] st =
    (failure,
     mkState [emptyOperation] [] [] []
       [(0%nat, "unsupported async type")]).
Proof.
  intros st group handle index.
  pose proof (RuntimeAwaitOp_lowering (mkRuntimeAwaitOp 0%nat group)
                [handle] st) as (_ & _ & Hgroup & _).
  pose proof (RuntimeAwaitOp_lowering (mkRuntimeAwaitOp 0%nat index)
                [index] st) as (_ & _ & _ & Hother).
  split; [apply Hgroup | apply Hother]; reflexivity.
Defined.

(** X7: add_to_group accepts only a Token as the value added: it lowers to
    one call to the add-to-group function with the remapped operands and an
    i64 result that replaces the operation.  With any other operand type,
    a Value or a Group included, it creates nothing and fails with a
    diagnostic. *)
Theorem RuntimeAddToGroupOp_lowering (op : RuntimeAddToGroupOp)
    (operands : list Value) (st : RewriterState) :
  let n := length (arena st) in
  let call := build_CallOp kAddTokenToGroup [i64] operands in
  (getType (add_to_group_operand op) = TokenType ->
     RuntimeAddToGroupOpLowering op operands st =
       (success,
        mkState (arena st ++ [call]) (inserted st ++ [n])
          (replaced st ++
             [(add_to_group_op op, [mkValue (OpResult n 0%nat) i64])])
          (erased st) (diagnostics st))) /\
  (getType (add_to_group_operand op) <> TokenType ->
     RuntimeAddToGroupOpLowering op operands st =
       (failure,
        mkState (arena st) (inserted st) (replaced st) (erased st)
          (diagnostics st ++
             [(add_to_group_op op, "only token type is supported")]))).
Proof.
  intros n call. unfold RuntimeAddToGroupOpLowering. split.
  - intros ->. cbn [isa_TokenType negb]. run_pattern. reflexivity.
  - intros Hother.
    destruct (getType (add_to_group_operand op));
      try reflexivity. contradiction.
Qed.

Lemma RuntimeAddToGroupOp_lowering_witness :
  let st := mkState [emptyOperation] [] [] [] [] in
  let token := mkValue (BlockArgument 0%nat 0%nat) TokenType in
  let value := mkValue (BlockArgument 0%nat 1%nat) (ValueType IndexType) in
  let group := mkValue (BlockArgument 0%nat 2%nat) GroupType in
  RuntimeAddToGroupOpLowering (mkRuntimeAddToGroupOp 0%nat token group)
      [token; group] st =
    (success,
     mkState
       [emptyOperation; build_CallOp kAddTokenToGroup [i64] [token; group]]
       [1%nat] [(0%nat, [mkValue (OpResult 1%nat 0%nat) i64])] [] []) /\
  RuntimeAddToGroupOpLowering (mkRuntimeAddToGroupOp 0%nat value group)
      [value; group] st =
    (failure,
     mkState [emptyOperation] [] [] []
       [(0%nat, "only token type is supported")]).
Proof.
  intros st token value group.
  pose proof (RuntimeAddToGroupOp_lowering
                (mkRuntimeAddToGroupOp 0%nat token group) [token; group] st)
    as (Htoken & _).
  pose proof (RuntimeAddToGroupOp_lowering
                (mkRuntimeAddToGroupOp 0%nat value group) [value; group] st)
    as (_ & Hother).
  split; [apply Htoken; reflexivity | apply Hother; discriminate].
Defined.

(** ** The coroutine frame *)

(** X8: the coroutine frame is obtained and released through the allocator
    pair the pass declares.  coro.begin lowers to the frame size intrinsic,
    a call to malloc on that size and the begin intrinsic on the id and the
    allocated pointer; coro.free lowers to the free intrinsic and a call to
    free on the pointer it returns.  When the module did not define malloc
    and free before the declaration step, the operand and result types of
    the two calls are the parameter and return types of the declarations
    that step added. *)
Theorem coro_frame_allocation (op : OpId) (operands : list Value)
    (st : RewriterState) (module : ModuleOp) :
  isMissing module kMalloc = true ->
  isMissing module kFree = true ->
  let n := length (arena st) in
  let i8Ptr := AsyncAPI.opaquePointerType in
  let coroSize := build_LLVM_CoroSizeOp i64 in
  let coroAlloc :=
    build_LLVM_CallOp [i8Ptr] kMalloc [getResult n coroSize 0] in
  let coroBegin :=
    build_LLVM_CoroBeginOp i8Ptr
      [operandAt operands 0; getResult (S n) coroAlloc 0] in
  let coroMem := build_LLVM_CoroFreeOp i8Ptr operands in
  let release := build_LLVM_CallOp [] kFree [getResult n coroMem 0] in
  CoroBeginOpConversion op operands st =
    (success,
     mkState (arena st ++ [coroSize; coroAlloc; coroBegin])
       (inserted st ++ [n; S n; S (S n)])
       (replaced st ++ [(op, [getResult (S (S n)) coroBegin 0])])
       (erased st) (diagnostics st)) /\
  CoroFreeOpConversion op operands st =
    (success,
     mkState (arena st ++ [coroMem; release]) (inserted st ++ [n; S n])
       (replaced st ++ [(op, [])]) (erased st) (diagnostics st)) /\
  lookupSymbol kMalloc (addRuntimeDeclarations module) =
    Some (LLVMFuncOp kMalloc
            (LLVMFunctionType (nth 0 (opResultTypes coroAlloc) NullTy)
               (map getType (opOperands coroAlloc)) false)
            Public) /\
  opResultTypes release = [] /\
  lookupSymbol kFree (addRuntimeDeclarations module) =
    Some (LLVMFuncOp kFree
            (LLVMFunctionType LLVMVoidType
               (map getType (opOperands release)) false)
            Public).
Proof.
  intros Hmalloc Hfree n i8Ptr coroSize coroAlloc coroBegin coroMem release.
  assert (Hdeclared : forall name d,
            isMissing module name = true ->
            In (name, d) runtimeDeclarations ->
            lookupSymbol name (addRuntimeDeclarations module) = Some d).
  { intros name d Hmissing Hd.
    rewrite addRuntimeDeclarations_declareAll.
    rewrite (lookupSymbol_declareAll name _ module runtimeDeclarations_named).
    unfold isMissing in Hmissing.
    destruct (lookupSymbol name module); [discriminate |].
    apply declarationOf_In; [| exact Hd].
    rewrite runtimeDeclarations_names. exact declaredNames_NoDup. }
  split; [unfold CoroBeginOpConversion; run_pattern; reflexivity |].
  split; [unfold CoroFreeOpConversion; run_pattern; reflexivity |].
  split; [| split; [reflexivity |]].
  - apply (Hdeclared kMalloc _ Hmalloc).
    unfold runtimeDeclarations. cbn [In]. do 16 right. left. reflexivity.
  - apply (Hdeclared kFree _ Hfree).
    unfold runtimeDeclarations. cbn [In]. do 17 right. left. reflexivity.
Qed.

Lemma coro_frame_allocation_witness :
  let st := mkState [emptyOperation] [] [] [] [] in
  let id := mkValue (BlockArgument 0%nat 0%nat) LLVMTokenType in
  let i8Ptr := AsyncAPI.opaquePointerType in
  CoroBeginOpConversion 0%nat [id] st =
    (success,
     mkState
       [emptyOperation;
        build_LLVM_CoroSizeOp i64;
        build_LLVM_CallOp [i8Ptr] kMalloc [mkValue (OpResult 1%nat 0%nat) i64];
        build_LLVM_CoroBeginOp i8Ptr
          [id; mkValue (OpResult 2%nat 0%nat) i8Ptr]]
       [1%nat; 2%nat; 3%nat]
       [(0%nat, [mkValue (OpResult 3%nat 0%nat) i8Ptr])] [] []) /\
  lookupSymbol kMalloc (addRuntimeDeclarations []) =
    Some (LLVMFuncOp kMalloc (LLVMFunctionType i8Ptr [i64] false) Public).
Proof.
  intros st id i8Ptr.
  pose proof (coro_frame_allocation 0%nat [id] st [] eq_refl eq_refl)
    as (Hbegin & _ & Hmalloc & _).
  split; [exact Hbegin | exact Hmalloc].
Defined.

(** ** Structural conversions: the replacement and the late failures *)

Lemma zipSetType_map (f : Ty -> Ty) (types : list Ty) :
  zipSetType types (map f types) = map f types.
Proof.
  induction types as [| t types IH]; [reflexivity |].
  cbn [map zipSetType]. rewrite IH. reflexivity.
Qed.

Lemma convertSignatureArgs_None (converter : TypeConverter)
    (types : list Ty) :
  convertSignatureArgs converter types = None <->
  Exists (fun type => convertTypeResults converter type = None) types.
Proof.
  induction types as [| type rest IH]; cbn [convertSignatureArgs].
  - split; [discriminate | intros H; inversion H].
  - destruct (convertTypeResults converter type) as [newTypes |] eqn:Htype.
    + destruct (convertSignatureArgs converter rest) as [newRest |].
      * split; [discriminate |].
        intros H. inversion H; subst; [congruence |].
        assert (Some newRest = None) by (apply IH; assumption).
        discriminate.
      * split; [intros _ | reflexivity].
        apply Exists_cons_tl, IH. reflexivity.
    + split; [intros _ | reflexivity].
      apply Exists_cons_hd. exact Htype.
Qed.

Lemma convertEntryBlock_None (converter : TypeConverter) (entry : Block)
    (rest : Region) :
  Exists (fun type => convertTypeResults converter type = None)
    (blockArgTypes entry) ->
  convertEntryBlock converter (entry :: rest) = None.
Proof.
  intros Hsome. apply convertSignatureArgs_None in Hsome.
  cbn [convertEntryBlock]. rewrite Hsome. reflexivity.
Qed.

Lemma structural_success_newOp (p : StructuralPattern)
    (typeConverter : TypeConverter) (op : OpId) (operands : list Value)
    (st st' : RewriterState) (o : Operation) :
  p = ForOpTypes \/ p = IfOpTypes ->
  arena st !! op = Some o ->
  matches p o ->
  matchAndRewrite p typeConverter op operands st = (success, st') ->
  exists (regions : list Region),
    let n := length (arena st) in
    let new :=
      mkOperation (opKind o) operands
        (map (convertType typeConverter) (opResultTypes o)) (opAttrs o)
        (opSuccessors o) regions in
    Forall (fun type => convertType typeConverter type <> NullTy)
      (opResultTypes o) /\
    arena st' !! n = Some new /\
    replaced st' = replaced st ++ [(op, getResults n new)].
Proof.
  intros Hp Ho [_ Hregions] Hrun.
  assert (Hlast : forall (a : list Operation) (x : Operation),
            length a = length (arena st) ->
            (a ++ [x]) !! length (arena st) = Some x).
  { intros a x <-. rewrite lookup_app_r by lia.
    rewrite Nat.sub_diag. reflexivity. }
  destruct Hp as [-> | ->]; cbn [numRegions matchAndRewrite] in *.
  - destruct (opRegions o) as [| body [| ? ?]] eqn:Hshape;
      try discriminate Hregions.
    rewrite (ConvertForOpTypes_run _ _ _ _ _ _ Ho Hshape) in Hrun.
    destruct (convertResultTypes typeConverter (opResultTypes o))
      as [newTypes |] eqn:Hconv; [| discriminate Hrun].
    apply convertResultTypes_Some in Hconv as [Hall ->].
    cbv zeta in Hrun.
    destruct (convertEntryBlock typeConverter body) as [body' |];
      [| discriminate Hrun].
    injection Hrun as <-. rewrite zipSetType_map.
    exists [body']. cbv zeta. cbn [arena replaced].
    split; [exact Hall |]. split; [| reflexivity].
    apply Hlast, length_insert.
  - destruct (opRegions o) as [| thenRegion [| elseRegion [| ? ?]]]
      eqn:Hshape; try discriminate Hregions.
    rewrite (ConvertIfOpTypes_run _ _ _ _ _ _ _ Ho Hshape) in Hrun.
    destruct (convertResultTypes typeConverter (opResultTypes o))
      as [newTypes |] eqn:Hconv; [| discriminate Hrun].
    apply convertResultTypes_Some in Hconv as [Hall ->].
    cbv zeta in Hrun. injection Hrun as <-. rewrite zipSetType_map.
    exists [thenRegion; elseRegion]. cbv zeta. cbn [arena replaced].
    split; [exact Hall |]. split; [| reflexivity].
    apply Hlast, length_insert.
Qed.

(** X9: the replacement a successful scf.for or scf.if rewrite builds keeps
    the kind, the attributes and the successors of the operation, takes the
    remapped operands, and has one result for each result of the operation,
    of the converted type, none of them null; the results of the operation
    are replaced one for one by these. *)
Theorem structural_rewrite_replacement (p : StructuralPattern)
    (typeConverter : TypeConverter) (op : OpId) (operands : list Value)
    (st st' : RewriterState) (o : Operation) :
  p = ForOpTypes \/ p = IfOpTypes ->
  arena st !! op = Some o ->
  matches p o ->
  matchAndRewrite p typeConverter op operands st = (success, st') ->
  let n := length (arena st) in
  exists new : Operation,
    arena st' !! n = Some new /\
    opKind new = opKind o /\
    opAttrs new = opAttrs o /\
    opSuccessors new = opSuccessors o /\
    opOperands new = operands /\
    opResultTypes new = map (convertType typeConverter) (opResultTypes o) /\
    Forall (fun type => type <> NullTy) (opResultTypes new) /\
    replaced st' =
      replaced st ++
      [(op,
        imap (fun i type => mkValue (OpResult n i) type)
          (map (convertType typeConverter) (opResultTypes o)))].
Proof.
  intros Hp Ho Hmatches Hrun n.
  destruct (structural_success_newOp p typeConverter op operands st st' o
              Hp Ho Hmatches Hrun) as (regions & Hall & Hnew & Hreplaced).
  cbv zeta in Hnew, Hreplaced.
  eexists. split; [exact Hnew |].
  cbn [opKind opAttrs opSuccessors opOperands opResultTypes].
  repeat split; try reflexivity; [| exact Hreplaced].
  apply Forall_map. exact Hall.
Qed.

Lemma structural_rewrite_replacement_witness :
  let conditional :=
    mkOperation scf_IfOp [] [TokenType; IndexType] [("tag", BoolAttr true)]
      [] [[mkBlock [] [1%nat]]; [mkBlock [] [2%nat]]] in
  let st :=
    mkState [conditional; emptyOperation; emptyOperation] [] [] [] [] in
  let cond := mkValue (BlockArgument 0%nat 0%nat) i1 in
  let st' := snd (ConvertIfOpTypes AsyncRuntimeTypeConverter 0%nat [cond] st)
  in
  exists new : Operation,
    arena st' !! 3%nat = Some new /\
    opOperands new = [cond] /\
    opResultTypes new = [AsyncAPI.opaquePointerType; IndexType].
Proof.
  intros conditional st cond st'.
  destruct (structural_rewrite_replacement IfOpTypes
              AsyncRuntimeTypeConverter 0%nat [cond] st st' conditional)
    as (new & Hnew & _ & _ & _ & Hoperands & Htypes & _).
  - right. reflexivity.
  - reflexivity.
  - split; reflexivity.
  - reflexivity.
  - exists new. split; [exact Hnew |]. split; [exact Hoperands |].
    exact Htypes.
Defined.

(** X10: when the converter maps every type to a legal one (a type it maps
    to itself), one successful scf.for or scf.if rewrite is enough: all
    result types of the replacement are legal. *)
Theorem structural_rewrite_reaches_legal (p : StructuralPattern)
    (typeConverter : TypeConverter) (op : OpId) (operands : list Value)
    (st st' : RewriterState) (o : Operation) :
  (forall t, isLegalType typeConverter (convertType typeConverter t)) ->
  p = ForOpTypes \/ p = IfOpTypes ->
  arena st !! op = Some o ->
  matches p o ->
  matchAndRewrite p typeConverter op operands st = (success, st') ->
  exists new : Operation,
    arena st' !! length (arena st) = Some new /\
    Forall (isLegalType typeConverter) (opResultTypes new).
Proof.
  intros Hidem Hp Ho Hmatches Hrun.
  destruct (structural_success_newOp p typeConverter op operands st st' o
              Hp Ho Hmatches Hrun) as (regions & _ & Hnew & _).
  cbv zeta in Hnew. eexists. split; [exact Hnew |].
  cbn [opResultTypes]. apply Forall_map, Forall_forall.
  intros t _. apply Hidem.
Qed.

Lemma AsyncRuntimeTypeConverter_idempotent (t : Ty) :
  isLegalType AsyncRuntimeTypeConverter
    (convertType AsyncRuntimeTypeConverter t).
Proof.
  unfold isLegalType. rewrite !convertType_AsyncRuntimeTypeConverter.
  destruct t; reflexivity.
Qed.

Lemma structural_rewrite_reaches_legal_witness :
  let loop :=
    mkOperation scf_ForOp [] [ValueType IndexType] [] []
      [[mkBlock [IndexType] [1%nat]]] in
  let st := mkState [loop; emptyOperation] [] [] [] [] in
  let st' := snd (ConvertForOpTypes AsyncRuntimeTypeConverter 0%nat [] st) in
  exists new : Operation,
    arena st' !! 2%nat = Some new /\
    Forall (isLegalType AsyncRuntimeTypeConverter) (opResultTypes new).
Proof.
  intros loop st st'.
  apply (structural_rewrite_reaches_legal ForOpTypes
           AsyncRuntimeTypeConverter 0%nat [] st st' loop).
  - exact AsyncRuntimeTypeConverter_idempotent.
  - left. reflexivity.
  - reflexivity.
  - split; reflexivity.
  - reflexivity.
Defined.

(** X11: the runtime type converter reaches its fixed point in one step:
    the type it gives for any type is legal.  A type is legal for it exactly
    when it is not one of the six async types. *)
Theorem AsyncRuntimeTypeConverter_legal (t : Ty) :
  isLegalType AsyncRuntimeTypeConverter
    (convertType AsyncRuntimeTypeConverter t) /\
  (isLegalType AsyncRuntimeTypeConverter t <-> convertAsyncTypes t = None).
Proof.
  split; [apply AsyncRuntimeTypeConverter_idempotent |].
  unfold isLegalType. rewrite convertType_AsyncRuntimeTypeConverter.
  destruct t; cbn; split; intros H; try reflexivity; discriminate H.
Qed.

Lemma AsyncRuntimeTypeConverter_legal_witness :
  convertAsyncTypes (LLVMPointerType (ValueType IndexType)) = None /\
  isLegalType AsyncRuntimeTypeConverter
    (LLVMPointerType (ValueType IndexType)).
Proof.
  pose proof (AsyncRuntimeTypeConverter_legal
                (LLVMPointerType (ValueType IndexType))) as (_ & Hlegal).
  split; [reflexivity | apply Hlegal; reflexivity].
Defined.

(** X12: scf.for fails late when its result types convert but an argument
    type of the entry block of its body does not.  The failure is reported
    with its own diagnostic and nothing is replaced, but by then the body has
    been taken: the clone is in the arena and holds the blocks of the body,
    unchanged, and the loop is left with an empty region. *)
Theorem ConvertForOpTypes_body_failure (typeConverter : TypeConverter)
    (op : OpId) (operands : list Value) (st : RewriterState)
    (o : Operation) (entry : Block) (rest : Region) :
  arena st !! op = Some o ->
  opRegions o = [entry :: rest] ->
  Forall (fun type => convertType typeConverter type <> NullTy)
    (opResultTypes o) ->
  Exists (fun type => convertTypeResults typeConverter type = None)
    (blockArgTypes entry) ->
  ConvertForOpTypes typeConverter op operands st =
    (failure,
     mkState (<[op := withRegions o [[]]]> (arena st) ++ [o])
       (inserted st ++ [length (arena st)]) (replaced st) (erased st)
       (diagnostics st ++ [(op, "could not convert body types")])).
Proof.
  intros Ho Hshape Hall Hentry.
  rewrite (ConvertForOpTypes_run _ _ _ _ _ _ Ho Hshape).
  destruct (convertResultTypes typeConverter (opResultTypes o))
    as [newTypes |] eqn:Hconv.
  - cbv zeta. rewrite (convertEntryBlock_None _ _ _ Hentry). reflexivity.
  - exfalso. apply convertResultTypes_None in Hconv.
    apply Exists_exists in Hconv as (t & Ht & Hnull).
    rewrite Forall_forall in Hall. exact (Hall t Ht Hnull).
Qed.

Lemma ConvertForOpTypes_body_failure_witness :
  let onlyAsync :=
    addConversion (wrapOptionalCallback convertAsyncTypes)
      emptyTypeConverter in
  let loop :=
    mkOperation scf_ForOp [] [TokenType] [] []
      [[mkBlock [IndexType; TokenType] [1%nat]]] in
  let st := mkState [loop; emptyOperation] [] [] [] [] in
  ConvertForOpTypes onlyAsync 0%nat [] st =
    (failure,
     mkState [withRegions loop [[]]; emptyOperation; loop] [2%nat] [] []
       [(0%nat, "could not convert body types")]).
Proof.
  intros onlyAsync loop st.
  apply (ConvertForOpTypes_body_failure onlyAsync 0%nat [] st loop
           (mkBlock [IndexType; TokenType] [1%nat]) []).
  - reflexivity.
  - reflexivity.
  - repeat constructor. discriminate.
  - apply Exists_cons_hd. reflexivity.
Defined.

(** X13: async.execute has no guard on its result types and reports no
    diagnostic.  When the entry block of its body converts, the rewrite
    succeeds and gives each result the type the converter answers for it,
    the null type included.  When an argument type of the entry block does
    not convert, the rewrite fails after the body was taken into the clone,
    and the list of diagnostics is as before. *)
Theorem ConvertExecuteOpTypes_unguarded (typeConverter : TypeConverter)
    (op : OpId) (operands : list Value) (st : RewriterState)
    (o : Operation) (body : Region) :
  arena st !! op = Some o ->
  opRegions o = [body] ->
  let n := length (arena st) in
  let emptied := <[op := withRegions o [[]]]> (arena st) in
  (forall body',
     convertEntryBlock typeConverter body = Some body' ->
     let new :=
       mkOperation (opKind o) operands
         (map (convertType typeConverter) (opResultTypes o)) (opAttrs o)
         (opSuccessors o) [body'] in
     ConvertExecuteOpTypes typeConverter op operands st =
       (success,
        mkState (emptied ++ [new]) (inserted st ++ [n])
          (replaced st ++ [(op, getResults n new)]) (erased st)
          (diagnostics st)) /\
     (Exists (fun type => convertType typeConverter type = NullTy)
        (opResultTypes o) ->
      In NullTy (opResultTypes new))) /\
  (forall entry rest,
     body = entry :: rest ->
     Exists (fun type => convertTypeResults typeConverter type = None)
       (blockArgTypes entry) ->
     ConvertExecuteOpTypes typeConverter op operands st =
       (failure,
        mkState (emptied ++ [withOperands o operands]) (inserted st ++ [n])
          (replaced st) (erased st) (diagnostics st))).
Proof.
  intros Ho Hshape n emptied.
  rewrite (ConvertExecuteOpTypes_run _ _ _ _ _ _ Ho Hshape). cbv zeta.
  split.
  - intros body' ->. split; [reflexivity |].
    intros Hnull. cbn [opResultTypes].
    apply Exists_exists in Hnull as (t & Ht & Hnull).
    rewrite <- Hnull. apply in_map. apply list_elem_of_In. exact Ht.
  - intros entry rest -> Hentry.
    rewrite (convertEntryBlock_None _ _ _ Hentry). reflexivity.
Qed.

Lemma ConvertExecuteOpTypes_unguarded_witness :
  let onlyAsync :=
    addConversion (wrapOptionalCallback convertAsyncTypes)
      emptyTypeConverter in
  let execute :=
    mkOperation async_ExecuteOp [] [TokenType; IndexType] [] []
      [[mkBlock [TokenType] [1%nat]]] in
  let st := mkState [execute; emptyOperation] [] [] [] [] in
  let new :=
    mkOperation async_ExecuteOp [] [AsyncAPI.opaquePointerType; NullTy] []
      [] [[mkBlock [AsyncAPI.opaquePointerType] [1%nat]]] in
  ConvertExecuteOpTypes onlyAsync 0%nat [] st =
    (success,
     mkState [withRegions execute [[]]; emptyOperation; new] [2%nat]
       [(0%nat, getResults 2%nat new)] [] []).
Proof.
  intros onlyAsync execute st new.
  pose proof (ConvertExecuteOpTypes_unguarded onlyAsync 0%nat [] st execute
                [mkBlock [TokenType] [1%nat]] eq_refl eq_refl)
    as (Hsuccess & _).
  apply (Hsuccess [mkBlock [AsyncAPI.opaquePointerType] [1%nat]]).
  reflexivity.
Defined.

(** ** The resume function *)

Lemma find_app_first {A : Type} (f : A -> bool) (l1 l2 : list A) :
  find f (l1 ++ l2) =
    match find f l1 with
    | Some x => Some x
    | None => find f l2
    end.
Proof.
  induction l1 as [| x l1 IH]; [reflexivity |].
  cbn [app find]. destruct (f x); [reflexivity | exact IH].
Qed.

Lemma find_filter_length {A : Type} (f : A -> bool) (l : list A) :
  (find f l = None -> length (List.filter f l) = 0%nat) /\
  (forall x, find f l = Some x -> (1 <= length (List.filter f l))%nat).
Proof.
  induction l as [| y l [IHnone IHsome]]; cbn [find List.filter].
  - split; [reflexivity | discriminate].
  - destruct (f y); cbn [length].
    + split; [discriminate | intros; lia].
    + split; assumption.
Qed.

Lemma addResumeFunction_cases (entry : BlockId)
    (module : list ModuleBodyOp) :
  addResumeFunction entry module =
    match lookupModuleSymbol kResume module with
    | Some _ => module
    | None => module ++ [resumeFunction entry]
    end.
Proof. reflexivity. Qed.

Lemma lookupModuleSymbol_addResumeFunction (entry : BlockId)
    (module : list ModuleBodyOp) (name : string) :
  lookupModuleSymbol name (addResumeFunction entry module) =
    match lookupModuleSymbol name module with
    | Some o => Some o
    | None =>
        if bool_decide (name = kResume) then Some (resumeFunction entry)
        else None
    end.
Proof.
  rewrite addResumeFunction_cases.
  destruct (lookupModuleSymbol kResume module) as [o |] eqn:Hresume.
  - destruct (lookupModuleSymbol name module) as [o' |] eqn:Hname;
      [reflexivity |].
    destruct (bool_decide (name = kResume)) eqn:Heq; [| reflexivity].
    apply bool_decide_eq_true in Heq. congruence.
  - unfold lookupModuleSymbol. rewrite find_app_first.
    fold (lookupModuleSymbol name module).
    destruct (lookupModuleSymbol name module) as [o' |]; [reflexivity |].
    cbn [find moduleSymbolName resumeFunction].
    destruct (decide (name = kResume)) as [-> | Hne].
    + rewrite !bool_decide_eq_true_2 by reflexivity. reflexivity.
    + rewrite (bool_decide_eq_false_2 (name = kResume)) by exact Hne.
      rewrite bool_decide_eq_false_2 by congruence. reflexivity.
Qed.

(** X14: the resume function is added once.  When the module defines no
    symbol [__resume], it gets, at its end, a private function of that name
    whose body resumes the coroutine handle it is given and returns; when
    the module already defines the symbol, whatever it names, the module is
    left as it is.  Adding again changes nothing, and no other symbol
    resolves differently. *)
Theorem addResumeFunction_once (entry entry' : BlockId)
    (module : list ModuleBodyOp) :
  addResumeFunction entry' (addResumeFunction entry module)
    = addResumeFunction entry module /\
  (lookupModuleSymbol kResume module = None ->
     addResumeFunction entry module = module ++ [resumeFunction entry] /\
     lookupModuleSymbol kResume (addResumeFunction entry module)
       = Some (resumeFunction entry)) /\
  (forall o, lookupModuleSymbol kResume module = Some o ->
     addResumeFunction entry module = module) /\
  ((moduleSymbolCount kResume module <= 1)%nat ->
     moduleSymbolCount kResume (addResumeFunction entry module) = 1%nat) /\
  (forall name, name <> kResume ->
     lookupModuleSymbol name (addResumeFunction entry module)
       = lookupModuleSymbol name module).
Proof.
  split; [| split; [| split; [| split]]].
  - rewrite (addResumeFunction_cases entry').
    rewrite lookupModuleSymbol_addResumeFunction.
    destruct (lookupModuleSymbol kResume module); reflexivity.
  - intros Hnone. rewrite lookupModuleSymbol_addResumeFunction.
    rewrite addResumeFunction_cases, Hnone. split; reflexivity.
  - intros o Ho. rewrite addResumeFunction_cases, Ho. reflexivity.
  - intros Hcount. rewrite addResumeFunction_cases.
    unfold moduleSymbolCount in *.
    pose proof (find_filter_length
                  (fun o => bool_decide (moduleSymbolName o = Some kResume))
                  module) as [Hnone Hsome].
    fold (lookupModuleSymbol kResume module) in Hnone, Hsome.
    destruct (lookupModuleSymbol kResume module) as [o |].
    + specialize (Hsome o eq_refl). lia.
    + rewrite List.filter_app, length_app, (Hnone eq_refl). reflexivity.
  - intros name Hne. rewrite lookupModuleSymbol_addResumeFunction.
    destruct (lookupModuleSymbol name module); [reflexivity |].
    rewrite bool_decide_eq_false_2 by exact Hne. reflexivity.
Qed.

Lemma addResumeFunction_once_witness :
  let user := Declaration (FuncOp "main" (FunctionType [] []) Public) in
  let clash := Declaration (OtherTopLevelOp (Some kResume)) in
  addResumeFunction 7%nat [user] = [user; resumeFunction 7%nat] /\
  addResumeFunction 7%nat [user; clash] = [user; clash] /\
  moduleSymbolCount kResume (addResumeFunction 7%nat [user]) = 1%nat /\
  lookupModuleSymbol "main" (addResumeFunction 7%nat [user]) = Some user.
Proof.
  intros user clash.
  pose proof (addResumeFunction_once 7%nat 7%nat [user])
    as (_ & Hadded & _ & Hcount & Hother).
  pose proof (addResumeFunction_once 7%nat 7%nat [user; clash])
    as (_ & _ & Hkept & _).
  split; [apply Hadded; reflexivity |].
  split; [apply (Hkept clash); reflexivity |].
  split; [apply Hcount; vm_compute; lia |].
  rewrite Hother; [reflexivity | discriminate].
Defined.

(** X15: the two patterns that hand a coroutine to the runtime make sure the
    resume function exists before they take its address.  resume always
    succeeds: the module afterwards is the module with the resume function
    added, and the operation is replaced by a call to the execute function
    on the handle and the address of [__resume].  await_and_resume does the
    same with the wait-and-execute function of the kind of its operand, on
    the operand, the handle and that address, and erases the operation; on
    an operand that is no Token, Value or Group it fails with a diagnostic,
    creates nothing and leaves the module as it was. *)
Theorem resume_patterns_add_resume_function (entry : BlockId)
    (operands : list Value) (module : list ModuleBodyOp)
    (st : RewriterState) :
  let n := length (arena st) in
  let module' := addResumeFunction entry module in
  let resumePtr :=
    build_LLVM_AddressOfOp (LLVMPointerType AsyncAPI.resumeFunctionType)
      kResume in
  is_Some (lookupModuleSymbol kResume module') /\
  (forall op : OpId,
     RuntimeResumeOpLowering entry op operands module st =
       ((success, module'),
        mkState
          (arena st ++
           [resumePtr;
            build_CallOp kExecute []
              [operandAt operands 0; getResult n resumePtr 0]])
          (inserted st ++ [n; S n]) (replaced st ++ [(op, [])])
          (erased st) (diagnostics st))) /\
  (forall (op : RuntimeAwaitAndResumeOp) (apiFuncName : string),
     let operandType := getType (await_and_resume_operand op) in
     operandType = TokenType /\ apiFuncName = kAwaitTokenAndExecute \/
     (exists T, operandType = ValueType T) /\
       apiFuncName = kAwaitValueAndExecute \/
     operandType = GroupType /\ apiFuncName = kAwaitAllAndExecute ->
     RuntimeAwaitAndResumeOpLowering entry op operands module st =
       ((success, module'),
        mkState
          (arena st ++
           [resumePtr;
            build_CallOp apiFuncName []
              [operandAt operands 0; operandAt operands 1;
               getResult n resumePtr 0]])
          (inserted st ++ [n; S n]) (replaced st)
          (erased st ++ [await_and_resume_op op]) (diagnostics st))) /\
  (forall op : RuntimeAwaitAndResumeOp,
     let operandType := getType (await_and_resume_operand op) in
     isa_TokenType operandType = false ->
     isa_ValueType operandType = false ->
     isa_GroupType operandType = false ->
     RuntimeAwaitAndResumeOpLowering entry op operands module st =
       ((failure, module),
        mkState (arena st) (inserted st) (replaced st) (erased st)
          (diagnostics st ++
             [(await_and_resume_op op, "unsupported async type")]))).
Proof.
  intros n module' resumePtr.
  split; [| split; [| split]].
  - unfold module'. rewrite lookupModuleSymbol_addResumeFunction.
    destruct (lookupModuleSymbol kResume module); eauto.
  - intros op. unfold RuntimeResumeOpLowering. run_pattern. reflexivity.
  - intros op apiFuncName operandType Hkind.
    unfold RuntimeAwaitAndResumeOpLowering. fold operandType.
    destruct Hkind as [[-> ->] | [[[T ->] ->] | [-> ->]]];
      cbn [isa_TokenType isa_ValueType isa_GroupType];
      run_pattern; reflexivity.
  - intros op operandType Htoken Hvalue Hgroup.
    unfold RuntimeAwaitAndResumeOpLowering. fold operandType.
    rewrite Htoken, Hvalue, Hgroup. reflexivity.
Qed.

Lemma resume_patterns_add_resume_function_witness :
  let st := mkState [emptyOperation] [] [] [] [] in
  let value := mkValue (BlockArgument 0%nat 0%nat) (ValueType IndexType) in
  let index := mkValue (BlockArgument 0%nat 0%nat) IndexType in
  let handle := mkValue (BlockArgument 0%nat 1%nat)
                  AsyncAPI.opaquePointerType in
  let resumePtr :=
    build_LLVM_AddressOfOp (LLVMPointerType AsyncAPI.resumeFunctionType)
      kResume in
  RuntimeAwaitAndResumeOpLowering 7%nat
      (mkRuntimeAwaitAndResumeOp 0%nat value handle) [handle; handle] [] st =
    ((success, [resumeFunction 7%nat]),
     mkState
       [emptyOperation; resumePtr;
        build_CallOp kAwaitValueAndExecute []
          [handle; handle;
           mkValue (OpResult 1%nat 0%nat)
             (LLVMPointerType AsyncAPI.resumeFunctionType)]]
       [1%nat; 2%nat] [] [0%nat] []) /\
  RuntimeAwaitAndResumeOpLowering 7%nat
      (mkRuntimeAwaitAndResumeOp 0%nat index handle) [index; handle] [] st =
    ((failure, []),
     mkState [emptyOperation] [] [] []
       [(0%nat, "unsupported async type")]).
Proof.
  intros st value index handle resumePtr.
  pose proof (resume_patterns_add_resume_function 7%nat [handle; handle] []
                st) as (_ & _ & Hsuccess & _).
  pose proof (resume_patterns_add_resume_function 7%nat [index; handle] []
                st) as (_ & _ & _ & Hfailure).
  split.
  - apply (Hsuccess (mkRuntimeAwaitAndResumeOp 0%nat value handle)
             kAwaitValueAndExecute).
    right. left. split; [exists IndexType |]; reflexivity.
  - apply (Hfailure (mkRuntimeAwaitAndResumeOp 0%nat index handle));
      reflexivity.
Defined.

(** ** What every lowering pattern keeps *)

Ltac outcome_appended :=
  eexists; split;
  [ split; reflexivity
  | split;
    [ repeat constructor
    | split;
      [ reflexivity
      | cbn [diagnostics replaced erased]; split;
        [ reflexivity
        | first [ left; eexists; split; reflexivity
                | right; split; reflexivity ] ] ] ] ].

Ltac outcome_failed :=
  eexists; split;
  [ split; cbn [arena inserted];
    [ symmetry; apply app_nil_r
    | cbn [length seq]; symmetry; apply app_nil_r ]
  | split;
    [ constructor
    | split;
      [ reflexivity
      | cbn [diagnostics replaced erased]; split;
        [ eexists; reflexivity | split; reflexivity ] ] ] ].

Ltac outcome_reported :=
  eexists; split;
  [ split; reflexivity
  | split;
    [ repeat constructor
    | split;
      [ reflexivity
      | cbn [diagnostics replaced erased]; split;
        [ eexists; reflexivity | split; reflexivity ] ] ] ].

(** What applying a pattern gives, whatever the pattern: nothing on a Value
    creation whose payload the converter has no type for, and otherwise a
    result that obeys [patternOutcome]. *)
Lemma applyPattern_outcome (p : LoweringPattern) (operands : list Value)
    (module : list ModuleBodyOp) (st : RewriterState) :
  match applyPattern p operands module st with
  | Some (result, module', st') => patternOutcome p module st result module' st'
  | None =>
      exists converter op T,
        p = RuntimeCreateOpPattern converter op /\
        create_resultType op = ValueType T /\
        convertType converter T = NullTy
  end.
Proof.
  unfold patternOutcome, moduleAfter, symbolsOf.
  destruct p; cbn [applyPattern rootOp resumeEntry]; unfold keepsModule.
  - unfold CoroIdOpConversion. run_pattern. outcome_appended.
  - unfold CoroBeginOpConversion. run_pattern. outcome_appended.
  - unfold CoroFreeOpConversion. run_pattern. outcome_appended.
  - unfold CoroEndOpConversion. run_pattern. outcome_appended.
  - unfold CoroSaveOpConversion. run_pattern. outcome_appended.
  - unfold CoroSuspendOpConversion. run_pattern. outcome_appended.
  - destruct (create_resultType op) eqn:HT;
      try (unfold RuntimeCreateOpLowering; rewrite HT;
           cbn [isa_TokenType isa_GroupType orb dyn_cast_ValueType];
           run_pattern; first [outcome_appended | outcome_failed]).
    destruct (isNull (convertType converter t)) eqn:Hty.
    + apply isNull_true in Hty.
      rewrite (RuntimeCreateOp_value_abort converter op operands st t
                 HT Hty).
      exists converter, op, t. repeat split; assumption.
    + apply isNull_false in Hty.
      rewrite (RuntimeCreateOp_value_run converter op operands st t HT Hty).
      outcome_appended.
  - unfold RuntimeSetAvailableOpLowering.
    destruct (getType (set_available_operand op));
      cbn [isa_TokenType isa_ValueType orb];
      run_pattern; first [outcome_appended | outcome_failed].
  - unfold RuntimeAwaitOpLowering.
    destruct (getType (await_operand op));
      cbn [isa_TokenType isa_ValueType isa_GroupType];
      run_pattern; first [outcome_appended | outcome_failed].
  - unfold RuntimeAwaitAndResumeOpLowering.
    destruct (getType (await_and_resume_operand op));
      cbn [isa_TokenType isa_ValueType isa_GroupType];
      run_pattern; first [outcome_appended | outcome_failed].
  - unfold RuntimeResumeOpLowering. run_pattern. outcome_appended.
  - run_pattern. rewrite RuntimeStoreOp_run. cbv zeta.
    destruct (isNull (convertType converter (getType (store_value op))));
      run_pattern; first [outcome_appended | outcome_reported].
  - run_pattern. rewrite RuntimeLoadOp_run. cbv zeta.
    destruct (isNull (convertType converter (load_result op)));
      run_pattern; first [outcome_appended | outcome_reported].
  - unfold RuntimeAddToGroupOpLowering.
    destruct (isa_TokenType (getType (add_to_group_operand op)));
      cbn [negb]; run_pattern; first [outcome_appended | outcome_failed].
  - unfold RuntimeAddRefOpLowering, RefCountingOpLowering. run_pattern.
    outcome_appended.
  - unfold RuntimeDropRefOpLowering, RefCountingOpLowering. run_pattern.
    outcome_appended.
  - unfold ReturnOpOpConversion. run_pattern. outcome_appended.
  - unfold ConvertAsyncYieldOpTypes. run_pattern. outcome_appended.
  - unfold ConvertScfYieldOpTypes. run_pattern. outcome_appended.
Qed.

Lemma applyPattern_create_abort (converter : TypeConverter)
    (op : RuntimeCreateOp) (T : Ty) (operands : list Value)
    (module : list ModuleBodyOp) (st : RewriterState) :
  create_resultType op = ValueType T ->
  convertType converter T = NullTy ->
  applyPattern (RuntimeCreateOpPattern converter op) operands module st
    = None.
Proof.
  intros HT Hnull. cbn [applyPattern].
  rewrite (RuntimeCreateOp_value_abort converter op operands st T HT Hnull).
  reflexivity.
Qed.

Lemma moduleAfter_appends (p : LoweringPattern) (result : LogicalResult)
    (module : list ModuleBodyOp) :
  moduleAfter p result module = module \/
  exists entry,
    resumeEntry p = Some entry /\ result = success /\
    lookupModuleSymbol kResume module = None /\
    moduleAfter p result module = module ++ [resumeFunction entry].
Proof.
  unfold moduleAfter.
  destruct (resumeEntry p) as [entry |]; [| left; reflexivity].
  destruct result; [| left; reflexivity].
  rewrite addResumeFunction_cases.
  destruct (lookupModuleSymbol kResume module) eqn:Hresume;
    [left; reflexivity |].
  right. exists entry. repeat split; reflexivity.
Qed.

(** X1: a lowering pattern only appends.  Every pattern hands a result back,
    except the creation of a Value whose payload type the converter has no
    type for.  Whenever a pattern hands a result back, the arena afterwards
    is the arena before followed by the operations the pattern created, the
    list of inserted operations grows by exactly the slots of those
    operations, in creation order, and no existing operation is changed,
    moved or removed.  The module afterwards is the module before; only a
    resume or await_and_resume pattern that succeeds on a module without a
    symbol [__resume] adds one operation at its end, the resume function. *)
Theorem applyPattern_appends_only (p : LoweringPattern)
    (operands : list Value) (module : list ModuleBodyOp)
    (st : RewriterState) :
  (applyPattern p operands module st = None <->
     exists converter op T,
       p = RuntimeCreateOpPattern converter op /\
       create_resultType op = ValueType T /\
       convertType converter T = NullTy) /\
  (forall result module' st',
     applyPattern p operands module st = Some ((result, module'), st') ->
     (exists new : list Operation,
        arena st' = arena st ++ new /\
        inserted st' =
          inserted st ++ seq (length (arena st)) (length new) /\
        (forall op o, arena st !! op = Some o -> arena st' !! op = Some o)) /\
     module' = moduleAfter p result module /\
     (module' = module \/
      exists entry,
        resumeEntry p = Some entry /\ result = success /\
        lookupModuleSymbol kResume module = None /\
        module' = module ++ [resumeFunction entry])).
Proof.
  pose proof (applyPattern_outcome p operands module st) as Hout.
  split.
  - split.
    + intros Hnone. rewrite Hnone in Hout. exact Hout.
    + intros (converter & op & T & -> & HT & Hnull).
      exact (applyPattern_create_abort converter op T operands module st
               HT Hnull).
  - intros result module' st' Hrun. rewrite Hrun in Hout.
    destruct Hout as (new & [Ha Hi] & _ & Hmodule & _).
    split; [| split].
    + exists new. split; [exact Ha |]. split; [exact Hi |].
      intros op o Ho. rewrite Ha. apply lookup_app_l_Some. exact Ho.
    + exact Hmodule.
    + rewrite Hmodule. apply moduleAfter_appends.
Qed.

Lemma applyPattern_appends_only_witness :
  let st := mkState [emptyOperation; emptyOperation] [] [] [] [] in
  let handle := mkValue (BlockArgument 0%nat 0%nat)
                  AsyncAPI.opaquePointerType in
  let resumePtr :=
    build_LLVM_AddressOfOp (LLVMPointerType AsyncAPI.resumeFunctionType)
      kResume in
  let st' :=
    mkState
      [emptyOperation; emptyOperation; resumePtr;
       build_CallOp kExecute [] [handle; getResult 2%nat resumePtr 0]]
      [2%nat; 3%nat] [(1%nat, [])] [] [] in
  applyPattern (RuntimeResumeOpPattern 7%nat 1%nat) [handle] [] st =
    Some ((success, [resumeFunction 7%nat]), st') /\
  arena st' !! 1%nat = Some emptyOperation /\
  applyPattern
    (RuntimeCreateOpPattern
       (addConversion (wrapOptionalCallback convertAsyncTypes)
          emptyTypeConverter)
       (mkRuntimeCreateOp 1%nat
          (ValueType (OpaqueType "builtin" "tensor"))))
    [] [] st = None.
Proof.
  intros st handle resumePtr st'.
  assert (Hrun : applyPattern (RuntimeResumeOpPattern 7%nat 1%nat) [handle]
                   [] st = Some ((success, [resumeFunction 7%nat]), st'))
    by reflexivity.
  split; [exact Hrun |].
  pose proof (applyPattern_appends_only (RuntimeResumeOpPattern 7%nat 1%nat)
                [handle] [] st) as (_ & Hreturned).
  destruct (Hreturned success [resumeFunction 7%nat] st' Hrun)
    as ((new & _ & _ & Hkept) & _ & _).
  split; [apply Hkept; reflexivity |].
  pose proof (applyPattern_appends_only
                (RuntimeCreateOpPattern
                   (addConversion (wrapOptionalCallback convertAsyncTypes)
                      emptyTypeConverter)
                   (mkRuntimeCreateOp 1%nat
                      (ValueType (OpaqueType "builtin" "tensor"))))
                [] [] st) as (Haborts & _).
  apply Haborts. eexists _, _, _.
  split; [reflexivity |]. split; reflexivity.
Defined.

(** X2: a lowering pattern hands back a result that the driver can act on.
    Unless the pattern is the creation of a Value whose payload type the
    converter has no type for, it returns; when it succeeds it has reported
    no diagnostic and has asked exactly once for its operation to be
    replaced or erased; when it fails it has reported exactly one
    diagnostic, attached to its operation, has asked for neither, and has
    left the module as it was. *)
Theorem applyPattern_disposes_or_reports (p : LoweringPattern)
    (operands : list Value) (module : list ModuleBodyOp)
    (st : RewriterState) :
  (forall converter op T,
     p = RuntimeCreateOpPattern converter op ->
     create_resultType op = ValueType T ->
     convertType converter T <> NullTy) ->
  exists result module' st',
    applyPattern p operands module st = Some ((result, module'), st') /\
    match result with
    | success =>
        diagnostics st' = diagnostics st /\ disposesOf (rootOp p) st st'
    | failure => reportsOn (rootOp p) st st' /\ module' = module
    end.
Proof.
  intros Hknown.
  pose proof (applyPattern_outcome p operands module st) as Hout.
  destruct (applyPattern p operands module st)
    as [[[result module'] st'] |].
  - exists result, module', st'. split; [reflexivity |].
    destruct Hout as (new & _ & _ & Hmodule & Hdiscipline).
    destruct result; [exact Hdiscipline |].
    split; [exact Hdiscipline |].
    rewrite Hmodule. unfold moduleAfter.
    destruct (resumeEntry p); reflexivity.
  - destruct Hout as (converter & op & T & Hp & HT & Hnull).
    exfalso. exact (Hknown converter op T Hp HT Hnull).
Qed.

Lemma applyPattern_disposes_or_reports_witness :
  let st := mkState [emptyOperation] [] [] [] [] in
  let group := mkValue (BlockArgument 0%nat 0%nat) GroupType in
  let index := mkValue (BlockArgument 0%nat 0%nat) IndexType in
  (exists module' st',
     applyPattern
       (RuntimeAwaitAndResumeOpPattern 7%nat
          (mkRuntimeAwaitAndResumeOp 0%nat group group))
       [group; group] [] st = Some ((success, module'), st') /\
     disposesOf 0%nat st st') /\
  (exists module' st',
     applyPattern
       (RuntimeAwaitAndResumeOpPattern 7%nat
          (mkRuntimeAwaitAndResumeOp 0%nat index group))
       [index; group] [] st = Some ((failure, module'), st') /\
     reportsOn 0%nat st st' /\ module' = []).
Proof.
  intros st group index. split.
  - destruct (applyPattern_disposes_or_reports
                (RuntimeAwaitAndResumeOpPattern 7%nat
                   (mkRuntimeAwaitAndResumeOp 0%nat group group))
                [group; group] [] st)
      as (result & module' & st' & Hrun & Hdiscipline);
      [intros converter op T Hp; discriminate Hp |].
    assert (Hresult : result = success).
    { cbv in Hrun. congruence. }
    subst result. exists module', st'.
    split; [exact Hrun | apply Hdiscipline].
  - destruct (applyPattern_disposes_or_reports
                (RuntimeAwaitAndResumeOpPattern 7%nat
                   (mkRuntimeAwaitAndResumeOp 0%nat index group))
                [index; group] [] st)
      as (result & module' & st' & Hrun & Hdiscipline);
      [intros converter op T Hp; discriminate Hp |].
    assert (Hresult : result = failure).
    { cbv in Hrun. congruence. }
    subst result. exists module', st'.
    split; [exact Hrun | exact Hdiscipline].
Defined.

(** ** The symbols of the emitted operations *)

Lemma emittedOps_appendsOnly (st st' : RewriterState)
    (new : list Operation) :
  appendsOnly st st' new -> emittedOps st st' = new.
Proof.
  intros [Ha Hi]. destruct st' as [a' i' r' e' d'].
  cbn [arena inserted] in Ha, Hi. subst a' i'.
  apply emittedOps_appended.
Qed.

Lemma lookupModuleSymbol_Declaration (name : string) (module : ModuleOp) :
  lookupModuleSymbol name (map Declaration module) =
    option_map Declaration (lookupSymbol name module).
Proof.
  unfold lookupModuleSymbol, lookupSymbol.
  induction module as [| d module IH]; [reflexivity |].
  cbn [map find moduleSymbolName]. unfold definesSymbol at 1.
  destruct (bool_decide (symbolName d = Some name)); [reflexivity | exact IH].
Qed.

Lemma addRuntimeDeclarations_declaresRuntime (module : ModuleOp) :
  declaresRuntime (map Declaration (addRuntimeDeclarations module)).
Proof.
  unfold declaresRuntime. rewrite <- runtimeDeclarations_names.
  rewrite Forall_forall. intros name Hname.
  apply list_elem_of_In, in_map_iff in Hname as (d & <- & Hd).
  rewrite lookupModuleSymbol_Declaration.
  rewrite addRuntimeDeclarations_declareAll.
  pose proof (declareAll_defines runtimeDeclarations module
                runtimeDeclarations_named) as Hdefined.
  rewrite Forall_forall in Hdefined.
  apply list_elem_of_In in Hd. destruct (Hdefined d Hd) as [o ->].
  eexists. reflexivity.
Qed.

Lemma moduleAfter_keeps (p : LoweringPattern) (result : LogicalResult)
    (module : list ModuleBodyOp) (name : string) :
  is_Some (lookupModuleSymbol name module) ->
  is_Some (lookupModuleSymbol name (moduleAfter p result module)).
Proof.
  intros [o Ho]. unfold moduleAfter.
  destruct (resumeEntry p) as [entry |]; [| eauto].
  destruct result; [| eauto].
  rewrite lookupModuleSymbol_addResumeFunction, Ho. eauto.
Qed.

(** X5: every symbol an operation created by a lowering pattern refers to
    (the callee of each call, the function whose address is taken) is
    defined in the module the pattern leaves.  The declaration step of
    runOnOperation defines every function of the runtime API and the
    allocator in the module, whatever the module held before; a pattern run
    on a module that defines them leaves a module that still does; and
    every symbol used by an operation the pattern created resolves there:
    the declared functions as before, and [__resume] because the resume
    patterns add the resume function before they take its address. *)
Theorem emitted_symbols_resolve (p : LoweringPattern)
    (operands : list Value) (module : list ModuleBodyOp)
    (st : RewriterState) :
  (forall module0 : ModuleOp,
     declaresRuntime (map Declaration (addRuntimeDeclarations module0))) /\
  (declaresRuntime module ->
   forall result module' st',
     applyPattern p operands module st = Some ((result, module'), st') ->
     declaresRuntime module' /\
     (forall o name,
        In o (emittedOps st st') ->
        In name (symbolUses o) ->
        is_Some (lookupModuleSymbol name module'))).
Proof.
  split; [exact addRuntimeDeclarations_declaresRuntime |].
  intros Hdeclared result module' st' Hrun.
  pose proof (applyPattern_outcome p operands module st) as Hout.
  rewrite Hrun in Hout.
  destruct Hout as (new & Happ & Hsyms & -> & _).
  unfold declaresRuntime in Hdeclared. rewrite Forall_forall in Hdeclared.
  split.
  - unfold declaresRuntime. rewrite Forall_forall. intros name Hname.
    apply moduleAfter_keeps, Hdeclared, Hname.
  - intros o name Ho Hname.
    rewrite (emittedOps_appendsOnly _ _ _ Happ) in Ho.
    unfold usesSymbols in Hsyms. rewrite Forall_forall in Hsyms.
    apply list_elem_of_In in Ho, Hname.
    specialize (Hsyms o Ho). rewrite Forall_forall in Hsyms.
    specialize (Hsyms name Hname).
    unfold symbolsOf in Hsyms. unfold moduleAfter.
    destruct (resumeEntry p) as [entry |]; [| exact (Hdeclared name Hsyms)].
    destruct result; [| exact (Hdeclared name Hsyms)].
    apply elem_of_cons in Hsyms as [-> | Hsyms].
    + rewrite lookupModuleSymbol_addResumeFunction.
      destruct (lookupModuleSymbol kResume module); eauto.
    + rewrite lookupModuleSymbol_addResumeFunction.
      destruct (Hdeclared name Hsyms) as [d ->]. eauto.
Qed.

Lemma emitted_symbols_resolve_witness :
  let module := map Declaration (addRuntimeDeclarations []) in
  let handle := mkValue (BlockArgument 0%nat 0%nat)
                  AsyncAPI.opaquePointerType in
  lookupModuleSymbol kResume module = None /\
  is_Some (lookupModuleSymbol kResume (addResumeFunction 7%nat module)) /\
  is_Some (lookupModuleSymbol kExecute (addResumeFunction 7%nat module)).
Proof.
  intros module handle.
  split; [reflexivity |].
  pose (st := mkState [emptyOperation] [] [] [] []).
  pose (resumePtr :=
          build_LLVM_AddressOfOp
            (LLVMPointerType AsyncAPI.resumeFunctionType) kResume).
  pose (call :=
          build_CallOp kExecute [] [handle; getResult 1%nat resumePtr 0]).
  pose (st' := mkState [emptyOperation; resumePtr; call] [1%nat; 2%nat]
                 [(0%nat, [])] [] []).
  pose proof (emitted_symbols_resolve (RuntimeResumeOpPattern 7%nat 0%nat)
                [handle] module st) as (Hdeclares & Hresolves).
  destruct (Hresolves (Hdeclares []) success (addResumeFunction 7%nat module)
              st' eq_refl) as (_ & Hsymbols).
  split.
  - apply (Hsymbols resumePtr kResume); [left | left]; reflexivity.
  - apply (Hsymbols call kExecute); [right; left | left]; reflexivity.
Defined.

(** ** The converter of the create, store and load patterns *)

Lemma convertType_llvmConverter (base : TypeConverter) (t : Ty) :
  convertType (llvmConverter base) t =
    match convertAsyncTypes t with
    | Some r => r
    | None => convertType base t
    end.
Proof.
  unfold convertType, convertTypeResults, llvmConverter, addConversion.
  cbn [conversions]. rewrite rev_unit. cbn [tryConversions].
  unfold wrapOptionalCallback.
  destruct (convertAsyncTypes t) as [r |] eqn:Hasync; [| reflexivity].
  destruct t; cbv in Hasync; try discriminate Hasync;
    injection Hasync as <-; reflexivity.
Qed.

(** X16: in the converter the create, store and load patterns run with, the
    async conversion is asked first and the LLVM converter only for the types
    it leaves alone.  So whatever the LLVM converter knows, storing or
    loading a payload that is itself a Token, a Value or a Group never
    fails, and creating a Token or a Group succeeds and emits exactly one
    operation: the call without arguments to the token constructor, or to
    the group constructor, whose result is the opaque pointer. *)
Theorem llvmConverter_async_first (base : TypeConverter)
    (operands : list Value) (st : RewriterState) :
  (forall t,
     convertType (llvmConverter base) t =
       match convertAsyncTypes t with
       | Some r => r
       | None => convertType base t
       end) /\
  (forall op : RuntimeStoreOp,
     convertAsyncTypes (getType (store_value op)) <> None ->
     fst (RuntimeStoreOpLowering (llvmConverter base) op operands st)
       = success) /\
  (forall op : RuntimeLoadOp,
     convertAsyncTypes (load_result op) <> None ->
     fst (RuntimeLoadOpLowering (llvmConverter base) op operands st)
       = success) /\
  (forall (op : RuntimeCreateOp) (callee : string),
     create_resultType op = TokenType /\ callee = kCreateToken \/
     create_resultType op = GroupType /\ callee = kCreateGroup ->
     exists st',
       RuntimeCreateOpLowering (llvmConverter base) op operands st =
         Some (success, st') /\
       emittedOps st st' =
         [build_CallOp callee [AsyncAPI.opaquePointerType] []]).
Proof.
  assert (Hasync : forall t,
            convertAsyncTypes t <> None ->
            isNull (convertType (llvmConverter base) t) = false).
  { intros t Ht. rewrite convertType_llvmConverter.
    destruct t; cbv in Ht |- *; congruence. }
  split; [apply convertType_llvmConverter |].
  split; [| split].
  - intros op Hop. rewrite RuntimeStoreOp_run. cbv zeta.
    rewrite (Hasync _ Hop). reflexivity.
  - intros op Hop. rewrite RuntimeLoadOp_run. cbv zeta.
    rewrite (Hasync _ Hop). reflexivity.
  - intros op callee Hkind. unfold RuntimeCreateOpLowering.
    destruct Hkind as [[-> ->] | [-> ->]];
      cbn [isa_TokenType isa_GroupType orb];
      rewrite convertType_llvmConverter; cbn [convertAsyncTypes isa_TokenType
        isa_GroupType isa_ValueType orb];
      run_pattern; eexists; (split; [reflexivity |]);
      apply (emittedOps_appended st [_]).
Qed.

Lemma llvmConverter_async_first_witness :
  let st := mkState [emptyOperation] [] [] [] [] in
  let storage := mkValue (BlockArgument 0%nat 0%nat)
                   AsyncAPI.opaquePointerType in
  let token := mkValue (BlockArgument 0%nat 1%nat) TokenType in
  fst (RuntimeStoreOpLowering (llvmConverter emptyTypeConverter)
         (mkRuntimeStoreOp 0%nat token storage) [token; storage] st)
    = success.
Proof.
  intros st storage token.
  pose proof (llvmConverter_async_first emptyTypeConverter [token; storage]
                st) as (_ & Hstore & _).
  apply (Hstore (mkRuntimeStoreOp 0%nat token storage)). discriminate.
Defined.

(** ** Structural conversions: what is asked of the driver *)

Lemma length_zipSetType (results newResultTypes : list Ty) :
  length (zipSetType results newResultTypes) = length results.
Proof.
  revert newResultTypes.
  induction results as [| t results IH]; intros [| t' newResultTypes];
    cbn [zipSetType length]; try reflexivity.
  rewrite IH. reflexivity.
Qed.

Lemma length_getResults (id : OpId) (o : Operation) :
  length (getResults id o) = length (opResultTypes o).
Proof. unfold getResults. apply length_imap. Qed.

(** X17: a structural rewrite that succeeds asks for its operation to be
    replaced, once, by exactly as many values as the operation has results;
    it erases nothing and reports no diagnostic. *)
Theorem structural_rewrite_replaces_all_results (p : StructuralPattern)
    (typeConverter : TypeConverter) (op : OpId) (operands : list Value)
    (st st' : RewriterState) (o : Operation) :
  arena st !! op = Some o ->
  matches p o ->
  matchAndRewrite p typeConverter op operands st = (success, st') ->
  exists newValues : list Value,
    replaced st' = replaced st ++ [(op, newValues)] /\
    length newValues = length (opResultTypes o) /\
    erased st' = erased st /\
    diagnostics st' = diagnostics st.
Proof.
  intros Ho [_ Hregions] Hrun.
  destruct p; cbn [numRegions matchAndRewrite] in *.
  - destruct (opRegions o) as [| body [| ? ?]] eqn:Hshape;
      try discriminate Hregions.
    rewrite (ConvertForOpTypes_run _ _ _ _ _ _ Ho Hshape) in Hrun.
    destruct (convertResultTypes typeConverter (opResultTypes o));
      [| discriminate Hrun].
    cbv zeta in Hrun.
    destruct (convertEntryBlock typeConverter body); [| discriminate Hrun].
    injection Hrun as <-. eexists. cbn [replaced erased diagnostics].
    split; [reflexivity |]. split; [| split; reflexivity].
    rewrite length_getResults. cbn [opResultTypes].
    apply length_zipSetType.
  - destruct (opRegions o) as [| thenRegion [| elseRegion [| ? ?]]]
      eqn:Hshape; try discriminate Hregions.
    rewrite (ConvertIfOpTypes_run _ _ _ _ _ _ _ Ho Hshape) in Hrun.
    destruct (convertResultTypes typeConverter (opResultTypes o));
      [| discriminate Hrun].
    cbv zeta in Hrun. injection Hrun as <-.
    eexists. cbn [replaced erased diagnostics].
    split; [reflexivity |]. split; [| split; reflexivity].
    rewrite length_getResults. cbn [opResultTypes].
    apply length_zipSetType.
  - destruct (opRegions o) as [| body [| ? ?]] eqn:Hshape;
      try discriminate Hregions.
    rewrite (ConvertExecuteOpTypes_run _ _ _ _ _ _ Ho Hshape) in Hrun.
    cbv zeta in Hrun.
    destruct (convertEntryBlock typeConverter body); [| discriminate Hrun].
    injection Hrun as <-. eexists. cbn [replaced erased diagnostics].
    split; [reflexivity |]. split; [| split; reflexivity].
    rewrite length_getResults. cbn [opResultTypes].
    apply length_map.
Qed.

Lemma structural_rewrite_replaces_all_results_witness :
  let execute :=
    mkOperation async_ExecuteOp [] [TokenType; ValueType IndexType] [] []
      [[mkBlock [] [1%nat]]] in
  let st := mkState [execute; emptyOperation] [] [] [] [] in
  let st' :=
    snd (ConvertExecuteOpTypes AsyncRuntimeTypeConverter 0%nat [] st) in
  exists newValues : list Value,
    replaced st' = [(0%nat, newValues)] /\ length newValues = 2%nat.
Proof.
  intros execute st st'.
  destruct (structural_rewrite_replaces_all_results ExecuteOpTypes
              AsyncRuntimeTypeConverter 0%nat [] st st' execute)
    as (newValues & Hreplaced & Hlength & _).
  - reflexivity.
  - split; reflexivity.
  - reflexivity.
  - exists newValues. split; [exact Hreplaced | exact Hlength].
Defined.
